(** * A model of [script.js], the client-side logic of the music survey form

    The script keeps three kinds of entries in the browser's [localStorage]
    (a per-browser identifier, a "completed" flag and one playback position
    per audio file), validates and sends the form, and locks it afterwards.

    The embedding is shallow: the page is a record [Page] (storage, form
    controls, status element, audio elements, pending timers, the requests
    sent so far), every function of the script is a computation in a small
    state-and-exception monad over [Page], and what the browser decides
    (random numbers, the clock, the outcome of [fetch], the conversion
    between numbers and strings) is read from a record [Env]. *)

From Stdlib Require Import ZArith QArith Qround String Ascii List Bool Lia.
From Stdlib Require Import PrimFloat.
From stdpp Require Import gmap strings list fin_maps.

Local Open Scope string_scope.
Local Open Scope Z_scope.

(** ** JavaScript strings *)

Module JsString.

(** [s.startsWith(p)] *)
Definition startsWith (s p : string) : bool := String.prefix p s.

(** [s.lastIndexOf(c)] for a one-character needle: the index of the last
    occurrence, [-1] when there is none. *)
Fixpoint lastIndexOf_from (c : ascii) (s : string) (i : Z) (found : Z) : Z :=
  match s with
  | EmptyString => found
  | String a s' =>
      lastIndexOf_from c s' (i + 1) (if Ascii.eqb a c then i else found)
  end.

Definition lastIndexOf (s : string) (c : ascii) : Z :=
  lastIndexOf_from c s 0 (-1).

(** [s.substring(i)]: negative indices count as [0], indices beyond the
    end give the empty string. *)
Fixpoint drop (n : nat) (s : string) : string :=
  match n, s with
  | O, _ => s
  | S _, EmptyString => EmptyString
  | S k, String _ s' => drop k s'
  end.

Definition substring_from (s : string) (i : Z) : string :=
  drop (Z.to_nat i) s.

(** The character at an index, as [s[i]] or [s.charAt(i)] gives it. *)
Definition charAt (s : string) (i : nat) : option ascii := String.get i s.

(** JavaScript truthiness of a value that is a string or [null]. *)
Definition truthy (v : option string) : bool :=
  match v with
  | None => false
  | Some s => negb (String.eqb s "")
  end.

End JsString.

(** ** JavaScript numbers that the script turns into integers *)

Module JsNumber.

(** [x | 0] on a real [x]: truncation toward zero, then reduction to a
    signed 32-bit integer (ToInt32). *)
Definition truncate (x : Q) : Z := Z.quot (Qnum x) (Zpos (Qden x)).

Definition wrap_int32 (n : Z) : Z :=
  let m := n mod 2 ^ 32 in
  if m <? 2 ^ 31 then m else m - 2 ^ 32.

Definition toInt32 (x : Q) : Z := wrap_int32 (truncate x).

Definition hex_digit (d : Z) : ascii :=
  match String.get (Z.to_nat d) "0123456789abcdef" with
  | Some c => c
  | None => "0"%char
  end.

(** The digits of a non-negative integer in radix 16, most significant
    first.  The fuel is the number of digits the integer can have. *)
Fixpoint hex_digits (fuel : nat) (n : Z) (acc : string) : string :=
  match fuel with
  | O => acc
  | S k =>
      let acc' := String (hex_digit (n mod 16)) acc in
      if n / 16 =? 0 then acc' else hex_digits k (n / 16) acc'
  end.

(** [v.toString(16)] on an integer [v]. *)
Definition toString16 (v : Z) : string :=
  if v <? 0
  then "-" ++ hex_digits (S (Z.to_nat (Z.log2 (- v)))) (- v) ""
  else hex_digits (S (Z.to_nat (Z.log2 v))) v "".

End JsNumber.

(** ** The page *)

(** The elements of the form that the script can reach.  [c_type] is the
    value of the [type] attribute (lower case, empty when absent), which is
    what the attribute selectors of the script compare. *)
Inductive Tag := TInput | TButton | TTextarea | TSelect.

Record Control := mkControl {
  c_tag : Tag;
  c_type : string;
  c_name : string;
  c_value : string;
  c_checked : bool;
  c_defaultValue : string;
  c_defaultChecked : bool;
  c_required : bool;
  c_disabled : bool;
  c_textContent : string;
  c_block : option nat         (* the enclosing [.question-block], if any *)
}.

Definition set_disabled (b : bool) (c : Control) : Control :=
  mkControl (c_tag c) (c_type c) (c_name c) (c_value c) (c_checked c)
    (c_defaultValue c) (c_defaultChecked c) (c_required c) b
    (c_textContent c) (c_block c).

Definition set_textContent (t : string) (c : Control) : Control :=
  mkControl (c_tag c) (c_type c) (c_name c) (c_value c) (c_checked c)
    (c_defaultValue c) (c_defaultChecked c) (c_required c) (c_disabled c)
    t (c_block c).

Definition reset_control (c : Control) : Control :=
  mkControl (c_tag c) (c_type c) (c_name c)
    (match c_tag c with
     | TInput => match c_type c with
                 | "checkbox" | "radio" => c_value c
                 | _ => c_defaultValue c
                 end
     | TTextarea | TSelect => c_defaultValue c
     | TButton => c_value c
     end)
    (match c_tag c with TInput => c_defaultChecked c | _ => c_checked c end)
    (c_defaultValue c) (c_defaultChecked c) (c_required c) (c_disabled c)
    (c_textContent c) (c_block c).

(** The [#submissionStatus] element. *)
Record Status := mkStatus {
  s_textContent : string;
  s_className : string;
  s_opacity : string;
  s_fontWeight : string
}.

(** Listeners that [initAudioPersistence] attaches to an audio element.
    Each closure captures the storage key computed for that element. *)
Inductive AudioEvent := EvTimeUpdate | EvEnded.

Inductive AudioListener :=
| SaveProgress (storageKey : string)
| ClearProgress (storageKey : string).

Record Audio := mkAudio {
  a_currentSrc : string;
  a_sourceSrc : option string;  (* [src] of the first [<source>] child *)
  a_currentTime : float;
  a_paused : bool;
  a_listeners : list (AudioEvent * AudioListener)
}.

Definition set_currentTime (t : float) (a : Audio) : Audio :=
  mkAudio (a_currentSrc a) (a_sourceSrc a) t (a_paused a) (a_listeners a).

Definition add_listener (ev : AudioEvent) (l : AudioListener) (a : Audio) : Audio :=
  mkAudio (a_currentSrc a) (a_sourceSrc a) (a_currentTime a) (a_paused a)
    (a_listeners a ++ [(ev, l)]).

(** Every call on [localStorage] is recorded. *)
Inductive StorageOp :=
| OpKeys
| OpGetItem (key : string)
| OpSetItem (key value : string)
| OpRemoveItem (key : string).

Record Request := mkRequest {
  r_url : string;
  r_method : string;
  r_mode : string;
  r_contentType : string;
  r_body : string
}.

Inductive Callback := CallLockForm.

Record Timer := mkTimer { t_delay : Z; t_callback : Callback }.

Record Page := mkPage {
  localStorage : gmap string string;
  storageTrace : list StorageOp;
  controls : list Control;        (* the controls inside [#musicSurveyForm] *)
  formOpacity : string;
  formPointerEvents : string;
  status : Status;
  audios : list Audio;
  timers : list Timer;
  requests : list Request;
  consoleErrors : list string;
  scrolledTo : list nat;
  validityReports : nat;
  submitListeners : nat;
  randomCalls : nat
}.

Definition with_storage (ls : gmap string string) (tr : list StorageOp) (p : Page) : Page :=
  mkPage ls tr (controls p) (formOpacity p) (formPointerEvents p) (status p)
    (audios p) (timers p) (requests p) (consoleErrors p) (scrolledTo p)
    (validityReports p) (submitListeners p) (randomCalls p).

Definition with_controls (cs : list Control) (p : Page) : Page :=
  mkPage (localStorage p) (storageTrace p) cs (formOpacity p)
    (formPointerEvents p) (status p) (audios p) (timers p) (requests p)
    (consoleErrors p) (scrolledTo p) (validityReports p) (submitListeners p)
    (randomCalls p).

Definition with_formStyle (opacity pointerEvents : string) (p : Page) : Page :=
  mkPage (localStorage p) (storageTrace p) (controls p) opacity pointerEvents
    (status p) (audios p) (timers p) (requests p) (consoleErrors p)
    (scrolledTo p) (validityReports p) (submitListeners p) (randomCalls p).

Definition with_status (s : Status) (p : Page) : Page :=
  mkPage (localStorage p) (storageTrace p) (controls p) (formOpacity p)
    (formPointerEvents p) s (audios p) (timers p) (requests p)
    (consoleErrors p) (scrolledTo p) (validityReports p) (submitListeners p)
    (randomCalls p).

Definition with_audios (l : list Audio) (p : Page) : Page :=
  mkPage (localStorage p) (storageTrace p) (controls p) (formOpacity p)
    (formPointerEvents p) (status p) l (timers p) (requests p)
    (consoleErrors p) (scrolledTo p) (validityReports p) (submitListeners p)
    (randomCalls p).

Definition with_timers (l : list Timer) (p : Page) : Page :=
  mkPage (localStorage p) (storageTrace p) (controls p) (formOpacity p)
    (formPointerEvents p) (status p) (audios p) l (requests p)
    (consoleErrors p) (scrolledTo p) (validityReports p) (submitListeners p)
    (randomCalls p).

Definition with_requests (l : list Request) (p : Page) : Page :=
  mkPage (localStorage p) (storageTrace p) (controls p) (formOpacity p)
    (formPointerEvents p) (status p) (audios p) (timers p) l
    (consoleErrors p) (scrolledTo p) (validityReports p) (submitListeners p)
    (randomCalls p).

Definition with_consoleErrors (l : list string) (p : Page) : Page :=
  mkPage (localStorage p) (storageTrace p) (controls p) (formOpacity p)
    (formPointerEvents p) (status p) (audios p) (timers p) (requests p)
    l (scrolledTo p) (validityReports p) (submitListeners p) (randomCalls p).

Definition with_scrolledTo (l : list nat) (p : Page) : Page :=
  mkPage (localStorage p) (storageTrace p) (controls p) (formOpacity p)
    (formPointerEvents p) (status p) (audios p) (timers p) (requests p)
    (consoleErrors p) l (validityReports p) (submitListeners p) (randomCalls p).

Definition with_validityReports (n : nat) (p : Page) : Page :=
  mkPage (localStorage p) (storageTrace p) (controls p) (formOpacity p)
    (formPointerEvents p) (status p) (audios p) (timers p) (requests p)
    (consoleErrors p) (scrolledTo p) n (submitListeners p) (randomCalls p).

Definition with_submitListeners (n : nat) (p : Page) : Page :=
  mkPage (localStorage p) (storageTrace p) (controls p) (formOpacity p)
    (formPointerEvents p) (status p) (audios p) (timers p) (requests p)
    (consoleErrors p) (scrolledTo p) (validityReports p) n (randomCalls p).

Definition with_randomCalls (n : nat) (p : Page) : Page :=
  mkPage (localStorage p) (storageTrace p) (controls p) (formOpacity p)
    (formPointerEvents p) (status p) (audios p) (timers p) (requests p)
    (consoleErrors p) (scrolledTo p) (validityReports p) (submitListeners p) n.

(** ** Computations: state and exceptions *)

Inductive Exn :=
| TypeError (msg : string)
| Error (msg : string).

Inductive Completion (A : Type) :=
| Normal (a : A)
| Throw (e : Exn).
Arguments Normal {A} a.
Arguments Throw {A} e.

Definition M (A : Type) : Type := Page -> Completion A * Page.

Definition ret {A} (a : A) : M A := fun p => (Normal a, p).

Definition bind {A B} (m : M A) (k : A -> M B) : M B :=
  fun p =>
    match m p with
    | (Normal a, p') => k a p'
    | (Throw e, p') => (Throw e, p')
    end.

Definition throw {A} (e : Exn) : M A := fun p => (Throw e, p).

(** [try { body } catch (error) { handler }] *)
Definition try_catch {A} (body : M A) (handler : Exn -> M A) : M A :=
  fun p =>
    match body p with
    | (Normal a, p') => (Normal a, p')
    | (Throw e, p') => handler e p'
    end.

Definition modify (f : Page -> Page) : M unit := fun p => (Normal tt, f p).
Definition gets {A} (f : Page -> A) : M A := fun p => (Normal (f p), p).

(** The monad operations are registered with stdpp's classes, so that
    [x ← m; k] and [m ;; k] read as sequencing of statements. *)
#[global] Instance M_ret : MRet M := @ret.
#[global] Instance M_bind : MBind M := fun A B k m => bind m k.

(** [l.forEach(f)] *)
Fixpoint forEach {A} (l : list A) (f : A -> M unit) : M unit :=
  match l with
  | [] => ret tt
  | x :: l' => f x ;; forEach l' f
  end.

(** The state a computation leaves, and its completion. *)
Definition exec {A} (m : M A) (p : Page) : Page := snd (m p).
Definition eval {A} (m : M A) (p : Page) : Completion A := fst (m p).

(** ** What the browser decides *)

Inductive FetchOutcome :=
| FetchRejected (reason : string)        (* the promise rejects *)
| FetchResolved (responseType : string). (* a response with this [type] *)

Record Env := mkEnv {
  Math_random : nat -> Q;              (* the n-th result of [Math.random()] *)
  Date_now : Z;                        (* the clock, in ms since the epoch *)
  fetch_outcome : Request -> FetchOutcome;
  parseFloat : string -> float;
  Number_toString : float -> string
}.

(** ** Library functions the script calls *)

(** *** [Date.prototype.toISOString] *)

Module JsDate.

Definition msPerDay : Z := 86400000.

Definition dec_digit (d : Z) : ascii :=
  match String.get (Z.to_nat d) "0123456789" with
  | Some c => c
  | None => "0"%char
  end.

(** The last [w] decimal digits of [n], padded with zeros. *)
Fixpoint pad (w : nat) (n : Z) (acc : string) : string :=
  match w with
  | O => acc
  | S k => pad k (n / 10) (String (dec_digit (n mod 10)) acc)
  end.

(** Year, month and day of the month of a day number (days since
    1970-01-01) in the proleptic Gregorian calendar. *)
Definition civil (days : Z) : Z * Z * Z :=
  let z := days + 719468 in
  let era := z / 146097 in
  let doe := z - era * 146097 in
  let yoe := (doe - doe / 1460 + doe / 36524 - doe / 146096) / 365 in
  let doy := doe - (365 * yoe + yoe / 4 - yoe / 100) in
  let mp := (5 * doy + 2) / 153 in
  let d := doy - (153 * mp + 2) / 5 + 1 in
  let m := if mp <? 10 then mp + 3 else mp - 9 in
  let y := yoe + era * 400 + (if m <=? 2 then 1 else 0) in
  (y, m, d).

Definition year_string (y : Z) : string :=
  if (0 <=? y) && (y <=? 9999) then pad 4 y ""
  else if y <? 0 then "-" ++ pad 6 (- y) ""
  else "+" ++ pad 6 y "".

Definition toISOString (t : Z) : string :=
  let '(y, m, d) := civil (t / msPerDay) in
  let ms := t mod msPerDay in
  year_string y ++ "-" ++ pad 2 m "" ++ "-" ++ pad 2 d "" ++ "T"
  ++ pad 2 (ms / 3600000) "" ++ ":" ++ pad 2 (ms / 60000 mod 60) "" ++ ":"
  ++ pad 2 (ms / 1000 mod 60) "" ++ "." ++ pad 3 (ms mod 1000) "" ++ "Z".

End JsDate.

(** *** [new URLSearchParams(entries).toString()] *)

Module UrlEncoded.

Definition upper_hex_digit (d : N) : ascii :=
  match String.get (N.to_nat d) "0123456789ABCDEF" with
  | Some c => c
  | None => "0"%char
  end.

Definition unreserved (c : ascii) : bool :=
  let n := N_of_ascii c in
  ((48 <=? n) && (n <=? 57) || (65 <=? n) && (n <=? 90)
   || (97 <=? n) && (n <=? 122)
   || (n =? 42) || (n =? 45) || (n =? 46) || (n =? 95))%N.

Definition encode_byte (c : ascii) : string :=
  if unreserved c then String c ""
  else if Ascii.eqb c " " then "+"
  else let n := N_of_ascii c in
       String "%" (String (upper_hex_digit (n / 16))
                     (String (upper_hex_digit (n mod 16)) "")).

Fixpoint encode (s : string) : string :=
  match s with
  | EmptyString => EmptyString
  | String c s' => encode_byte c ++ encode s'
  end.

Fixpoint serialize (entries : list (string * string)) : string :=
  match entries with
  | [] => ""
  | [(k, v)] => encode k ++ "=" ++ encode v
  | (k, v) :: rest => encode k ++ "=" ++ encode v ++ "&" ++ serialize rest
  end.

End UrlEncoded.

(** *** Selectors *)

Definition Tag_eqb (a b : Tag) : bool :=
  match a, b with
  | TInput, TInput | TButton, TButton | TTextarea, TTextarea
  | TSelect, TSelect => true
  | _, _ => false
  end.

(** A compound selector [tag[type="..."][name="..."]]; a selector is a
    comma-separated list of them. *)
Record Compound := mkCompound {
  sel_tag : Tag;
  sel_type : option string;
  sel_name : option string
}.

Definition attr_matches (want : option string) (have : string) : bool :=
  match want with
  | None => true
  | Some v => String.eqb have v
  end.

Definition matches_compound (c : Control) (s : Compound) : bool :=
  Tag_eqb (c_tag c) (sel_tag s)
  && attr_matches (sel_type s) (c_type c)
  && attr_matches (sel_name s) (c_name c).

Definition matches (sel : list Compound) (c : Control) : bool :=
  existsb (matches_compound c) sel.

(** The positions, in document order, of the controls a selector matches. *)
Fixpoint matching_from (sel : list Compound) (i : nat) (cs : list Control) : list nat :=
  match cs with
  | [] => []
  | c :: cs' =>
      if matches sel c then i :: matching_from sel (S i) cs'
      else matching_from sel (S i) cs'
  end.

(** [form.querySelectorAll(sel)] and [form.querySelector(sel)]; elements
    are referred to by their position in the form. *)
Definition querySelectorAll (sel : list Compound) : M (list nat) :=
  gets (fun p => matching_from sel 0 (controls p)).

Definition querySelector (sel : list Compound) : M (option nat) :=
  gets (fun p => head (matching_from sel 0 (controls p))).

(** ['input, button, textarea'] *)
Definition sel_lockable : list Compound :=
  [mkCompound TInput None None; mkCompound TButton None None;
   mkCompound TTextarea None None].
(** [`input[type="checkbox"][name="${name}"]`] *)
Definition sel_checkbox (name : string) : list Compound :=
  [mkCompound TInput (Some "checkbox") (Some name)].
(** [`input[name="${name}"]`] *)
Definition sel_input (name : string) : list Compound :=
  [mkCompound TInput None (Some name)].
(** ['button[type="submit"]'] *)
Definition sel_submit : list Compound :=
  [mkCompound TButton (Some "submit") None].

(** Writing a property of an element; on [null] this is a [TypeError]. *)
Definition update_control (f : Control -> Control) (i : nat) : M unit :=
  modify (fun p => with_controls (alter f i (controls p)) p).

Definition update_control_opt (f : Control -> Control) (el : option nat) : M unit :=
  match el with
  | Some i => update_control f i
  | None => throw (TypeError "Cannot set properties of null")
  end.

(** *** Form validity, reset and entries *)

Definition is_type (c : Control) (t : string) : bool := String.eqb (c_type c) t.

Definition is_checkable (c : Control) : bool :=
  Tag_eqb (c_tag c) TInput && (is_type c "checkbox" || is_type c "radio").

(** Some radio button of the group of [c] is checked. *)
Definition group_checked (cs : list Control) (c : Control) : bool :=
  existsb (fun d => Tag_eqb (c_tag d) TInput && is_type d "radio"
                    && String.eqb (c_name d) (c_name c) && c_checked d) cs.

Definition group_required (cs : list Control) (c : Control) : bool :=
  existsb (fun d => Tag_eqb (c_tag d) TInput && is_type d "radio"
                    && String.eqb (c_name d) (c_name c) && c_required d) cs.

(** The [required] constraint, the one the markup of the form uses. *)
Definition value_missing (cs : list Control) (c : Control) : bool :=
  match c_tag c with
  | TInput =>
      if is_type c "checkbox" then c_required c && negb (c_checked c)
      else if is_type c "radio" then group_required cs c && negb (group_checked cs c)
      else if is_type c "hidden" || is_type c "submit" || is_type c "reset"
              || is_type c "button" || is_type c "image" then false
      else c_required c && String.eqb (c_value c) ""
  | TTextarea | TSelect => c_required c && String.eqb (c_value c) ""
  | TButton => false
  end.

(** [form.checkValidity()]: disabled controls are barred from validation. *)
Definition checkValidity : M bool :=
  gets (fun p => forallb (fun c => c_disabled c || negb (value_missing (controls p) c))
                   (controls p)).

(** [form.reportValidity()] shows the browser's own message. *)
Definition reportValidity : M unit :=
  modify (fun p => with_validityReports (S (validityReports p)) p).

(** [form.reset()] *)
Definition form_reset : M unit :=
  modify (fun p => with_controls (map reset_control (controls p)) p).

Definition is_button_like (c : Control) : bool :=
  match c_tag c with
  | TButton => true
  | TInput => is_type c "submit" || is_type c "reset" || is_type c "button"
              || is_type c "image"
  | _ => false
  end.

(** The entry a control contributes to [new FormData(form)], which has no
    submitter: disabled controls, buttons, unchecked boxes and controls
    without a name contribute nothing. *)
Definition entry_of (c : Control) : option (string * string) :=
  if c_disabled c || is_button_like c
     || (is_checkable c && negb (c_checked c))
     || String.eqb (c_name c) ""
  then None
  else Some (c_name c, c_value c).

Definition new_FormData : M (list (string * string)) :=
  gets (fun p => omap entry_of (controls p)).

(** *** [localStorage] *)

Definition log_op (op : StorageOp) (ls : gmap string string) (p : Page) : Page :=
  with_storage ls (storageTrace p ++ [op]) p.

Definition getItem (key : string) : M (option string) :=
  fun p => (Normal (localStorage p !! key), log_op (OpGetItem key) (localStorage p) p).

Definition setItem (key value : string) : M unit :=
  fun p => (Normal tt, log_op (OpSetItem key value) (<[key := value]> (localStorage p)) p).

Definition removeItem (key : string) : M unit :=
  fun p => (Normal tt, log_op (OpRemoveItem key) (delete key (localStorage p)) p).

(** [Object.keys(localStorage)] *)
Definition Object_keys_localStorage : M (list string) :=
  fun p => (Normal (map fst (map_to_list (localStorage p))),
            log_op OpKeys (localStorage p) p).

(** ** The script *)

Definition GAS_WEB_APP_URL : string :=
  "https://script.google.com/macros/s/AKfycbxiVrXBRaWDxZZRxDAqOCn-dMeJ6ZPr6JyAktUx5Deo9-zGg17jm6s66rxJmAxZ5mI0TA/exec".

Definition STORAGE_PREFIX : string := "music_survey_".

Definition requiredGroups : list (string * string) :=
  [("styles_soft_relaxing", "請至少選擇一項您感到放鬆的音樂風格。");
   ("styles_intense_emotional", "請至少選擇一項您感到不舒服的音樂風格。")].

Definition uuid_template : string := "xxxxxxxx-xxxx-4xxx-yxxx-xxxxxxxxxxxx".

Section Script.

Context (env : Env).

Definition call_Math_random : M Q :=
  fun p => (Normal (Math_random env (randomCalls p)),
            with_randomCalls (S (randomCalls p)) p).

(** [fetch(url, options)] followed by [await]: the request leaves, and
    the promise either resolves to a response or rejects. *)
Definition await_fetch (req : Request) : M string :=
  fun p =>
    let p' := with_requests (requests p ++ [req]) p in
    match fetch_outcome env req with
    | FetchResolved ty => (Normal ty, p')
    | FetchRejected reason => (Throw (TypeError reason), p')
    end.

Definition setTimeout (cb : Callback) (delay : Z) : M unit :=
  modify (fun p => with_timers (timers p ++ [mkTimer delay cb]) p).

Definition console_error (msg : string) : M unit :=
  modify (fun p => with_consoleErrors (consoleErrors p ++ [msg]) p).

Definition scrollIntoView (block : nat) : M unit :=
  modify (fun p => with_scrolledTo (scrolledTo p ++ [block]) p).

(** [showStatus(message, type)] *)
Definition showStatus (message type : string) : M unit :=
  modify (fun p =>
    with_status (mkStatus message type (s_opacity (status p))
                   (s_fontWeight (status p))) p).

(** [lockForm()] *)
Definition lockForm : M unit :=
  inputs ← querySelectorAll sel_lockable;
  forEach inputs (update_control (set_disabled true));;
  modify (with_formStyle "0.6" "none");;
  modify (fun p =>
    with_status (mkStatus (s_textContent (status p)) (s_className (status p))
                   "1" "bold") p).

(** [checkIfSubmitted()] *)
Definition checkIfSubmitted : M unit :=
  completed ← getItem (STORAGE_PREFIX ++ "completed");
  if bool_decide (completed = Some "true")
  then lockForm;;
       showStatus "您已完成此問卷，請勿重複填寫。" "info"
  else mret tt.

(** [clearSurveyStorage()] *)
Definition clearSurveyStorage : M unit :=
  keys ← Object_keys_localStorage;
  forEach keys (fun key =>
    if JsString.startsWith key (STORAGE_PREFIX ++ "audio_")
    then removeItem key
    else mret tt).

(** The callback of [replace(/[xy]/g, ...)] in [getOrCreateUUID]. *)
Definition uuid_digit (c : ascii) : M string :=
  x ← call_Math_random;
  let r := Z.lor (JsNumber.toInt32 (x * 16)) 0 in
  let v := if Ascii.eqb c "x" then r else Z.lor (Z.land r 3) 8 in
  mret (JsNumber.toString16 v).

(** [s.replace(/[xy]/g, f)]: every [x] and [y], from left to right, is
    replaced by what [f] returns for it. *)
Fixpoint replace_xy (s : string) (f : ascii -> M string) : M string :=
  match s with
  | EmptyString => mret EmptyString
  | String c s' =>
      if Ascii.eqb c "x" || Ascii.eqb c "y"
      then d ← f c; rest ← replace_xy s' f; mret (d ++ rest)%string
      else rest ← replace_xy s' f; mret (String c rest)
  end.

(** [getOrCreateUUID()] *)
Definition getOrCreateUUID : M string :=
  let key := STORAGE_PREFIX ++ "user_uuid" in
  uuid ← getItem key;
  if JsString.truthy uuid
  then mret (default "" uuid)
  else uuid ← replace_xy uuid_template uuid_digit;
       setItem key uuid;;
       mret uuid.

(** [validateCheckboxGroups()]: the loop over [requiredGroups]. *)
Fixpoint validateGroups (groups : list (string * string)) : M bool :=
  match groups with
  | [] => mret true
  | (name, message) :: rest =>
      checkboxes ← querySelectorAll (sel_checkbox name);
      isChecked ← gets (fun p =>
        existsb (fun i => from_option c_checked false (controls p !! i)) checkboxes);
      if negb isChecked
      then showStatus message "error";;
           first ← querySelector (sel_input name);
           questionBlock ← gets (fun p => i ← first; c ← controls p !! i; c_block c);
           match questionBlock with
           | Some b => scrollIntoView b
           | None => mret tt
           end;;
           mret false
      else validateGroups rest
  end.

Definition validateCheckboxGroups : M bool := validateGroups requiredGroups.

Definition completed_key : string := STORAGE_PREFIX ++ "completed".

(** The body of the [try] block of the submit listener. *)
Definition submit_try : M unit :=
  formData ← new_FormData;
  let formData := (formData ++ [("submission_time", JsDate.toISOString (Date_now env))])%list in
  uuid ← getOrCreateUUID;
  let formData := (formData ++ [("uuid", uuid)])%list in
  showStatus "提交中..." "info";;
  submitBtn ← querySelector sel_submit;
  update_control_opt (set_disabled true) submitBtn;;
  update_control_opt (set_textContent "處理中...") submitBtn;;
  responseType ← await_fetch
    (mkRequest GAS_WEB_APP_URL "POST" "no-cors"
       "application/x-www-form-urlencoded" (UrlEncoded.serialize formData));
  if String.eqb responseType "opaque"
  then showStatus "提交成功！感謝您的參與" "success";;
       form_reset;;
       clearSurveyStorage;;
       setItem completed_key "true";;
       setTimeout CallLockForm 1500
  else throw (Error "伺服器返回異常響應").

(** The [catch] block. *)
Definition submit_catch (error : Exn) : M unit :=
  console_error "提交失敗:";;
  submitBtn ← querySelector sel_submit;
  update_control_opt (set_disabled false) submitBtn;;
  update_control_opt (set_textContent "提交問卷") submitBtn;;
  showStatus "提交失敗: 請檢查網路後重試" "error".

(** The [submit] listener of the form. *)
Definition onSubmit : M unit :=
  groupsOk ← validateCheckboxGroups;
  if negb groupsOk then mret tt
  else
    valid ← checkValidity;
    if negb valid
    then showStatus "請完成所有必填項目" "error";;
         reportValidity
    else try_catch submit_try submit_catch.

(** *** Audio progress *)

(** [audio.currentTime = t]: the attribute is a restricted [double], so a
    value that is not finite is refused with a [TypeError]. *)
Definition is_finite (t : float) : bool :=
  match PrimFloat.classify t with
  | FloatClass.NaN | FloatClass.PInf | FloatClass.NInf => false
  | _ => true
  end.

Definition assign_currentTime (i : nat) (t : float) : M unit :=
  if is_finite t
  then modify (fun p => with_audios (alter (set_currentTime t) i (audios p)) p)
  else throw (TypeError "The provided double value is non-finite").

Definition addEventListener (i : nat) (ev : AudioEvent) (l : AudioListener) : M unit :=
  modify (fun p => with_audios (alter (add_listener ev l) i (audios p)) p).

(** [audio.currentSrc || audio.querySelector('source')?.src] *)
Definition audio_src (a : Audio) : option string :=
  if String.eqb (a_currentSrc a) "" then a_sourceSrc a else Some (a_currentSrc a).

Definition fileName_of (src : string) : string :=
  JsString.substring_from src (JsString.lastIndexOf src "/" + 1).

Definition audio_key (src : string) : string :=
  STORAGE_PREFIX ++ "audio_" ++ fileName_of src.

(** The callback of [audios.forEach] in [initAudioPersistence]. *)
Definition initAudio (i : nat) : M unit :=
  audio ← gets (fun p => audios p !! i);
  match audio with
  | None => mret tt
  | Some a =>
      let src := audio_src a in
      if negb (JsString.truthy src) then mret tt
      else
        let storageKey := audio_key (default "" src) in
        savedTime ← getItem storageKey;
        (if JsString.truthy savedTime
         then assign_currentTime i (parseFloat env (default "" savedTime))
         else mret tt);;
        addEventListener i EvTimeUpdate (SaveProgress storageKey);;
        addEventListener i EvEnded (ClearProgress storageKey)
  end.

(** [initAudioPersistence()] *)
Definition initAudioPersistence : M unit :=
  audios ← gets (fun p => seq 0 (length (audios p)));
  forEach audios initAudio.

(** The two listeners, run for the audio element at position [i]. *)
Definition run_listener (i : nat) (l : AudioListener) : M unit :=
  match l with
  | SaveProgress storageKey =>
      audio ← gets (fun p => audios p !! i);
      match audio with
      | Some a =>
          if negb (a_paused a)
          then setItem storageKey (Number_toString env (a_currentTime a))
          else mret tt
      | None => mret tt
      end
  | ClearProgress storageKey => removeItem storageKey
  end.

Definition AudioEvent_eqb (a b : AudioEvent) : bool :=
  match a, b with
  | EvTimeUpdate, EvTimeUpdate | EvEnded, EvEnded => true
  | _, _ => false
  end.

Definition listeners_for (ev : AudioEvent) (a : Audio) : list AudioListener :=
  map snd (filter (fun el => AudioEvent_eqb (fst el) ev = true) (a_listeners a)).

(** An event of kind [ev] fires on the audio element at position [i]. *)
Definition dispatchAudioEvent (i : nat) (ev : AudioEvent) : M unit :=
  ls ← gets (fun p => from_option (listeners_for ev) [] (audios p !! i));
  forEach ls (run_listener i).

(** *** The page's life *)

(** The [DOMContentLoaded] listener. *)
Definition onDOMContentLoaded : M unit :=
  checkIfSubmitted;;
  initAudioPersistence;;
  modify (fun p => with_submitListeners (S (submitListeners p)) p).

Definition run_callback (cb : Callback) : M unit :=
  match cb with
  | CallLockForm => lockForm
  end.

(** The oldest pending timer expires. *)
Definition fireTimer : M unit :=
  pending ← gets timers;
  match pending with
  | [] => mret tt
  | t :: rest => modify (with_timers rest);; run_callback (t_callback t)
  end.

Fixpoint repeatM (n : nat) (m : M unit) : M unit :=
  match n with
  | O => mret tt
  | S k => m;; repeatM k m
  end.

(** A [submit] event runs every registered listener. *)
Definition dispatchSubmit : M unit :=
  n ← gets submitListeners;
  repeatM n (try_catch onSubmit (fun _ => mret tt)).

End Script.

(** *** Events *)

Inductive Event :=
| PageLoaded                                 (* [DOMContentLoaded] *)
| FormSubmitted                              (* [submit] on the form *)
| AudioFired (i : nat) (ev : AudioEvent)     (* [timeupdate] or [ended] *)
| TimerExpired.

Definition handle (env : Env) (e : Event) : M unit :=
  match e with
  | PageLoaded => onDOMContentLoaded env
  | FormSubmitted => dispatchSubmit env
  | AudioFired i ev => dispatchAudioEvent env i ev
  | TimerExpired => fireTimer
  end.

(** A document that has just been parsed: the script has done nothing yet. *)
Definition fresh_page (p : Page) : Prop :=
  storageTrace p = [] ∧ Forall (fun a => a_listeners a = []) (audios p)
  ∧ timers p = [] ∧ requests p = [] ∧ submitListeners p = 0%nat.

(** What the user and the media engine may change behind the script's
    back: anything but the script's own listeners, timers and records. *)
Definition outside_change (p p' : Page) : Prop :=
  storageTrace p' = storageTrace p
  ∧ map a_listeners (audios p') = map a_listeners (audios p)
  ∧ timers p' = timers p ∧ requests p' = requests p
  ∧ submitListeners p' = submitListeners p.

Inductive reachable : Page -> Prop :=
| reach_fresh p : fresh_page p -> reachable p
| reach_event env e p : reachable p -> reachable (exec (handle env e) p)
| reach_outside p p' : reachable p -> outside_change p p' -> reachable p'.

(** ** Vocabulary of the properties *)

Definition uuid_key : string := "music_survey_user_uuid".
Definition audio_prefix : string := "music_survey_audio_".

(** The controls [lockForm] addresses: [input], [button] and [textarea]. *)
Definition lockable (c : Control) : bool :=
  match c_tag c with
  | TInput | TButton | TTextarea => true
  | TSelect => false
  end.

(** A control through which the user can start a submission: an enabled
    button or an enabled [input] (a submit button, or a field in which
    Enter submits the form). *)
Definition starts_submission (c : Control) : bool :=
  negb (c_disabled c)
  && match c_tag c with
     | TInput | TButton => true
     | TTextarea | TSelect => false
     end.

(** Some checkbox named [name] is checked. *)
Definition has_checked_box (p : Page) (name : string) : bool :=
  existsb (fun c => Tag_eqb (c_tag c) TInput && String.eqb (c_type c) "checkbox"
                    && String.eqb (c_name c) name && c_checked c) (controls p).

(** The key of a storage call, if it has one. *)
Definition op_key (op : StorageOp) : option string :=
  match op with
  | OpKeys => None
  | OpGetItem k | OpSetItem k _ | OpRemoveItem k => Some k
  end.

Definition op_prefixed (op : StorageOp) : Prop :=
  ∀ k, op_key op = Some k → JsString.startsWith k "music_survey_" = true.

Definition listener_key (l : AudioListener) : string :=
  match l with
  | SaveProgress k | ClearProgress k => k
  end.

(** The identifier [getOrCreateUUID] builds from the draws number [n],
    [n+1], ... of [Math.random()]. *)
Definition digit_of_draw (env : Env) (c : ascii) (n : nat) : string :=
  let r := Z.lor (JsNumber.toInt32 (Math_random env n * 16)) 0 in
  JsNumber.toString16 (if Ascii.eqb c "x" then r else Z.lor (Z.land r 3) 8).

Fixpoint uuid_of_draws (env : Env) (s : string) (n : nat) : string :=
  match s with
  | EmptyString => EmptyString
  | String c s' =>
      if Ascii.eqb c "x" || Ascii.eqb c "y"
      then digit_of_draw env c n ++ uuid_of_draws env s' (S n)
      else String c (uuid_of_draws env s' n)
  end.

Fixpoint count_xy (s : string) : nat :=
  match s with
  | EmptyString => 0
  | String c s' =>
      ((if Ascii.eqb c "x" || Ascii.eqb c "y" then 1 else 0) + count_xy s')%nat
  end.

(** The shape of a version 4 UUID, position by position. *)
Definition is_lower_hex (c : ascii) : bool :=
  let n := N_of_ascii c in
  ((48 <=? n) && (n <=? 57) || (97 <=? n) && (n <=? 102))%N.

Definition is_variant (c : ascii) : bool :=
  Ascii.eqb c "8" || Ascii.eqb c "9" || Ascii.eqb c "a" || Ascii.eqb c "b".

Definition position_ok (i : nat) (c : ascii) : bool :=
  if (i =? 8)%nat || (i =? 13)%nat || (i =? 18)%nat || (i =? 23)%nat
  then Ascii.eqb c "-"
  else if (i =? 14)%nat then Ascii.eqb c "4"
  else if (i =? 19)%nat then is_variant c
  else is_lower_hex c.

Fixpoint positions_ok (i : nat) (s : string) : bool :=
  match s with
  | EmptyString => true
  | String c s' => position_ok i c && positions_ok (S i) s'
  end.

Definition is_uuid_v4 (s : string) : bool :=
  (String.length s =? 36)%nat && positions_ok 0 s.

(** The entries of [new FormData(form)]. *)
Definition new_entries (p : Page) : list (string * string) :=
  omap entry_of (controls p).

(** The request the submit listener sends from page [p]. *)
Definition submit_entries (env : Env) (p : Page) : list (string * string) :=
  omap entry_of (controls p)
  ++ [("submission_time", JsDate.toISOString (Date_now env));
      ("uuid", match eval (getOrCreateUUID env) p with
               | Normal u => u
               | Throw _ => ""
               end)].

Definition submit_request (env : Env) (p : Page) : Request :=
  mkRequest GAS_WEB_APP_URL "POST" "no-cors" "application/x-www-form-urlencoded"
    (UrlEncoded.serialize (submit_entries env p)).

(** The saved position of an audio element, when the script restores it:
    a non-empty string that reads as a finite number. *)
Definition restorable (env : Env) (v : string) : bool :=
  negb (String.eqb v "") && is_finite (parseFloat env v).

(** What [initAudioPersistence] makes of one audio element, given the
    storage it reads. *)
Definition audio_initialised (env : Env) (ls : gmap string string) (a : Audio) : Audio :=
  match audio_src a with
  | Some src =>
      if String.eqb src "" then a
      else
        let key := audio_key src in
        let a1 := if JsString.truthy (ls !! key)
                  then set_currentTime (parseFloat env (default "" (ls !! key))) a
                  else a in
        add_listener EvEnded (ClearProgress key)
          (add_listener EvTimeUpdate (SaveProgress key) a1)
  | None => a
  end.


(** One turn of the loop of [clearSurveyStorage], on the storage alone. *)
Definition clear_step (m : gmap string string) (key : string) : gmap string string :=
  if JsString.startsWith key (STORAGE_PREFIX ++ "audio_") then delete key m else m.

(** What [lockForm] makes of one control. *)
Definition lock_control (c : Control) : Control :=
  if lockable c then set_disabled true c else c.

(** A string follows a template of [replace(/[xy]/g, ...)]: a lower-case
    hexadecimal digit for every [x], one of [8 9 a b] for every [y], and the
    template's own character elsewhere. *)
Fixpoint follows_template (t u : string) : bool :=
  match t, u with
  | EmptyString, EmptyString => true
  | String c t', String d u' =>
      (if Ascii.eqb c "x" then is_lower_hex d
       else if Ascii.eqb c "y" then is_variant d
       else Ascii.eqb c d)
      && follows_template t' u'
  | _, _ => false
  end.

(** A computation leaves an observation of the page alone. *)
Definition preserves {A B} (f : Page -> B) (m : M A) : Prop :=
  ∀ p, f (exec m p) = f p.

(** A computation never throws. *)
Definition total {A} (m : M A) : Prop :=
  ∀ p, ∃ a, eval m p = Normal a.

(** * Properties *)

Local Open Scope list_scope.

(** ** Reasoning about computations *)

Lemma run_bind {A B} (m : M A) (k : A -> M B) p :
  (m ≫= k) p = match m p with
               | (Normal a, p') => k a p'
               | (Throw e, p') => (Throw e, p')
               end.
Proof. reflexivity. Qed.

Lemma run_ret {A} (a : A) p : (mret a : M A) p = (Normal a, p).
Proof. reflexivity. Qed.

Lemma exec_bind_normal {A B} (m : M A) (k : A -> M B) p a :
  eval m p = Normal a → exec (m ≫= k) p = exec (k a) (exec m p).
Proof.
  unfold exec, eval. rewrite run_bind. destruct (m p) as [[x|e] p']; simpl; congruence.
Qed.

Lemma eval_bind_normal {A B} (m : M A) (k : A -> M B) p a :
  eval m p = Normal a → eval (m ≫= k) p = eval (k a) (exec m p).
Proof.
  unfold exec, eval. rewrite run_bind. destruct (m p) as [[x|e] p']; simpl; congruence.
Qed.

Lemma preserves_ret {A B} (f : Page -> B) (a : A) : preserves f (mret a : M A).
Proof. intros p. reflexivity. Qed.

Lemma preserves_throw {A B} (f : Page -> B) e : preserves f (throw e : M A).
Proof. intros p. reflexivity. Qed.

Lemma preserves_gets {A B} (f : Page -> B) (g : Page -> A) : preserves f (gets g).
Proof. intros p. reflexivity. Qed.

Lemma preserves_bind {A B C} (f : Page -> C) (m : M A) (k : A -> M B) :
  preserves f m → (∀ a, preserves f (k a)) → preserves f (m ≫= k).
Proof.
  intros Hm Hk p. unfold exec. rewrite run_bind.
  specialize (Hm p). unfold exec in Hm.
  destruct (m p) as [[a|e] p']; simpl in *; [|done].
  rewrite <- Hm. apply Hk.
Qed.

Lemma preserves_try_catch {A C} (f : Page -> C) (m : M A) (h : Exn -> M A) :
  preserves f m → (∀ e, preserves f (h e)) → preserves f (try_catch m h).
Proof.
  intros Hm Hh p. unfold exec, try_catch.
  specialize (Hm p). unfold exec in Hm.
  destruct (m p) as [[a|e] p']; simpl in *; [done|].
  rewrite <- Hm. apply Hh.
Qed.

Lemma preserves_forEach {A C} (f : Page -> C) (l : list A) (body : A -> M unit) :
  (∀ x, preserves f (body x)) → preserves f (forEach l body).
Proof.
  intros Hb. induction l as [|x l IH]; simpl.
  - apply preserves_ret.
  - apply preserves_bind; auto.
Qed.

Lemma preserves_modify {C} (f : Page -> C) (g : Page -> Page) :
  (∀ p, f (g p) = f p) → preserves f (modify g).
Proof. intros H p. apply H. Qed.

Lemma total_ret {A} (a : A) : total (mret a : M A).
Proof. intros p. by exists a. Qed.

Lemma total_bind {A B} (m : M A) (k : A -> M B) :
  total m → (∀ a, total (k a)) → total (m ≫= k).
Proof.
  intros Hm Hk p. destruct (Hm p) as [a Ha].
  destruct (Hk a (exec m p)) as [b Hb]. exists b.
  by rewrite (eval_bind_normal _ _ _ _ Ha).
Qed.

Lemma total_forEach {A} (l : list A) (body : A -> M unit) :
  (∀ x, total (body x)) → total (forEach l body).
Proof.
  intros Hb. induction l as [|x l IH]; simpl.
  - apply total_ret.
  - apply total_bind; auto.
Qed.

Lemma total_unit (m : M unit) p : total m → eval m p = Normal tt.
Proof. intros H. destruct (H p) as [[] Ha]. exact Ha. Qed.

Lemma total_modify g : total (modify g).
Proof. intros p. by exists tt. Qed.

Lemma total_gets {A} (g : Page -> A) : total (gets g).
Proof. intros p. by exists (g p). Qed.

(** Splitting a run into its completion and its final page. *)
Lemma run_eq {A} (m : M A) p : m p = (eval m p, exec m p).
Proof. unfold eval, exec. by destruct (m p). Qed.

(** ** [clearSurveyStorage] *)

Lemma clear_loop keys : ∀ p,
  eval (forEach keys (fun key =>
          if JsString.startsWith key (STORAGE_PREFIX +:+ "audio_")
          then removeItem key else mret tt)) p = Normal tt
  ∧ localStorage (exec (forEach keys (fun key =>
          if JsString.startsWith key (STORAGE_PREFIX +:+ "audio_")
          then removeItem key else mret tt)) p)
    = foldl clear_step (localStorage p) keys.
Proof.
  induction keys as [|k keys IH]; intros p; [done|].
  cbn [forEach foldl].
  set (body := fun key : string => _) in *.
  assert (Hk : eval (body k) p = Normal tt ∧
               localStorage (exec (body k) p) = clear_step (localStorage p) k).
  { unfold body, clear_step. by destruct (JsString.startsWith k _). }
  destruct Hk as [Hk1 Hk2].
  rewrite (eval_bind_normal _ _ _ _ Hk1), (exec_bind_normal _ _ _ _ Hk1).
  destruct (IH (exec (body k) p)) as [IH1 IH2].
  by rewrite IH1, IH2, Hk2.
Qed.

Lemma clear_fold_lookup keys : ∀ (m : gmap string string) k,
  foldl clear_step m keys !! k =
    if decide (JsString.startsWith k (STORAGE_PREFIX +:+ "audio_") = true ∧ k ∈ keys)
    then None else m !! k.
Proof.
  induction keys as [|k0 keys IH]; intros m k; cbn [foldl].
  - case_decide as H; [|done]. destruct H as [_ H]. by apply elem_of_nil in H.
  - rewrite IH. unfold clear_step.
    destruct (decide (k = k0)) as [->|Hne].
    + destruct (JsString.startsWith k0 _) eqn:E.
      * rewrite lookup_delete_eq.
        repeat case_decide; try done.
        all: exfalso; rewrite elem_of_cons in *; naive_solver.
      * repeat case_decide; naive_solver.
    + assert (Hm : (if JsString.startsWith k0 (STORAGE_PREFIX +:+ "audio_")
                    then delete k0 m else m) !! k = m !! k).
      { destruct (JsString.startsWith k0 _); [by rewrite lookup_delete_ne|done]. }
      rewrite Hm. repeat case_decide; try done.
      all: exfalso; rewrite elem_of_cons in *; naive_solver.
Qed.

Lemma clearSurveyStorage_lookup (p : Page) (k : string) :
  localStorage (exec clearSurveyStorage p) !! k =
    if JsString.startsWith k audio_prefix then None else localStorage p !! k.
Proof.
  unfold clearSurveyStorage.
  rewrite (exec_bind_normal _ _ p (map fst (map_to_list (localStorage p)))) by done.
  destruct (clear_loop (map fst (map_to_list (localStorage p)))
              (exec Object_keys_localStorage p)) as [_ ->].
  rewrite clear_fold_lookup. change (STORAGE_PREFIX +:+ "audio_") with audio_prefix.
  change (localStorage (exec Object_keys_localStorage p)) with (localStorage p).
  destruct (JsString.startsWith k audio_prefix) eqn:E.
  - case_decide as H; [done|].
    destruct (localStorage p !! k) as [v|] eqn:Hv; [|done].
    exfalso. apply H. split; [done|].
    apply list_elem_of_fmap. exists (k, v). split; [done|].
    by apply elem_of_map_to_list.
  - case_decide as H; [naive_solver|done].
Qed.

Lemma clearSurveyStorage_total : total clearSurveyStorage.
Proof.
  intros p. exists tt. unfold clearSurveyStorage.
  rewrite (eval_bind_normal _ _ p (map fst (map_to_list (localStorage p)))) by done.
  apply clear_loop.
Qed.

(** C9.  For every content of [localStorage], [clearSurveyStorage]
    completes and removes exactly the keys that start with
    ["music_survey_audio_"]: such a key is absent afterwards, every other
    key holds what it held before, and in particular the identifier and the
    completed flag survive. *)
Theorem clearSurveyStorage_frame (p : Page) :
  eval clearSurveyStorage p = Normal tt
  ∧ (∀ k, JsString.startsWith k "music_survey_audio_" = true →
          localStorage (exec clearSurveyStorage p) !! k = None)
  ∧ (∀ k, JsString.startsWith k "music_survey_audio_" = false →
          localStorage (exec clearSurveyStorage p) !! k = localStorage p !! k)
  ∧ localStorage (exec clearSurveyStorage p) !! "music_survey_user_uuid"
    = localStorage p !! "music_survey_user_uuid"
  ∧ localStorage (exec clearSurveyStorage p) !! "music_survey_completed"
    = localStorage p !! "music_survey_completed".
Proof.
  split; [apply total_unit, clearSurveyStorage_total|].
  split; [|split; [|split]].
  - intros k Hk. rewrite clearSurveyStorage_lookup. unfold audio_prefix. by rewrite Hk.
  - intros k Hk. rewrite clearSurveyStorage_lookup. unfold audio_prefix. by rewrite Hk.
  - by rewrite clearSurveyStorage_lookup.
  - by rewrite clearSurveyStorage_lookup.
Qed.

(** ** [lockForm] and [checkIfSubmitted] *)

Lemma matches_lockable c : matches sel_lockable c = lockable c.
Proof. unfold matches, lockable, matches_compound. by destruct (c_tag c). Qed.

Lemma update_control_total f i : total (update_control f i).
Proof. apply total_modify. Qed.

(** Running [forEach] over the elements a selector matched applies the
    update to exactly those elements. *)
Lemma update_loop sel f : ∀ cs pre p,
  controls p = pre ++ cs →
  controls (exec (forEach (matching_from sel (length pre) cs) (update_control f)) p)
  = pre ++ map (fun c => if matches sel c then f c else c) cs.
Proof.
  induction cs as [|c cs IH]; intros pre p Hp.
  - change (controls p = pre ++ map (fun c => if matches sel c then f c else c) []).
    by rewrite Hp.
  - cbn [matching_from map]. destruct (matches sel c) eqn:E.
    + cbn [forEach]. rewrite (exec_bind_normal _ _ p tt) by done.
      replace (S (length pre)) with (length (pre ++ [f c]))
        by (rewrite length_app; simpl; lia).
      rewrite IH; [by rewrite <- app_assoc|].
      unfold exec, update_control, modify; simpl. rewrite Hp.
      replace (length pre) with (length pre + 0)%nat at 1 by lia.
      rewrite alter_app_r. simpl. by rewrite <- app_assoc.
    + replace (S (length pre)) with (length (pre ++ [c]))
        by (rewrite length_app; simpl; lia).
      rewrite IH; by rewrite <- app_assoc.
Qed.

Lemma lockForm_total : total lockForm.
Proof.
  unfold lockForm. apply total_bind; [apply total_gets|]. intros inputs.
  apply total_bind; [apply total_forEach; intros; apply update_control_total|].
  intros _. apply total_bind; intros; apply total_modify.
Qed.

Lemma lockForm_controls p :
  controls (exec lockForm p) = map lock_control (controls p).
Proof.
  unfold lockForm.
  rewrite (exec_bind_normal _ _ p (matching_from sel_lockable 0 (controls p))) by done.
  change (exec (querySelectorAll sel_lockable) p) with p.
  pose proof (total_forEach (matching_from sel_lockable 0 (controls p))
                (update_control (set_disabled true))
                (update_control_total _)) as Ht.
  rewrite (exec_bind_normal _ _ p tt) by (by apply total_unit).
  rewrite (exec_bind_normal _ _ _ tt) by done.
  change (controls (exec (forEach (matching_from sel_lockable (length (@nil Control))
                                     (controls p))
                            (update_control (set_disabled true))) p)
          = map lock_control (controls p)).
  rewrite (update_loop sel_lockable (set_disabled true) (controls p) [] p) by done.
  cbn [app]. apply map_ext. intros c. unfold lock_control. by rewrite matches_lockable.
Qed.

Lemma lockForm_style p :
  formPointerEvents (exec lockForm p) = "none" ∧ formOpacity (exec lockForm p) = "0.6".
Proof.
  unfold lockForm.
  rewrite (exec_bind_normal _ _ p (matching_from sel_lockable 0 (controls p))) by done.
  pose proof (total_forEach (matching_from sel_lockable 0 (controls p))
                (update_control (set_disabled true))
                (update_control_total _)) as Ht.
  rewrite (exec_bind_normal _ _ _ tt) by (by apply total_unit).
  by rewrite (exec_bind_normal _ _ _ tt) by done.
Qed.

Lemma update_control_preserves {B} (g : Page -> B) f i :
  (∀ cs p, g (with_controls cs p) = g p) → preserves g (update_control f i).
Proof. intros H. apply preserves_modify. intros p. apply H. Qed.

Lemma lockForm_preserves {B} (g : Page -> B) :
  (∀ cs p, g (with_controls cs p) = g p) →
  (∀ o e p, g (with_formStyle o e p) = g p) →
  (∀ s p, g (with_status s p) = g p) →
  preserves g lockForm.
Proof.
  intros Hc Hf Hs. unfold lockForm.
  apply preserves_bind; [apply preserves_gets|]. intros inputs.
  apply preserves_bind.
  { apply preserves_forEach. intros i. by apply update_control_preserves. }
  intros _. apply preserves_bind; [by apply preserves_modify|].
  intros _. by apply preserves_modify.
Qed.

Lemma lock_control_disabled c : lockable c = true → c_disabled (lock_control c) = true.
Proof. unfold lock_control. by intros ->. Qed.

Lemma lock_control_blocks c : starts_submission (lock_control c) = false.
Proof.
  destruct c as [t ? ? ? ? ? ? ? d ? ?].
  destruct t; cbn; try done.
  unfold starts_submission; cbn. apply andb_false_r.
Qed.

Lemma showStatus_controls msg ty p : controls (exec (showStatus msg ty) p) = controls p.
Proof. reflexivity. Qed.

(** C1.  Whenever [localStorage] holds ["true"] under
    ["music_survey_completed"], [checkIfSubmitted] completes and locks the
    form: every [input], [button] and [textarea] control of the form is
    disabled (the controls are otherwise the ones of the page), the form
    ignores the pointer, no control is left through which a submission
    could be started, and the storage is untouched. *)
Theorem checkIfSubmitted_locks (p : Page) :
  localStorage p !! "music_survey_completed" = Some "true" →
  eval checkIfSubmitted p = Normal tt
  ∧ controls (exec checkIfSubmitted p) = map lock_control (controls p)
  ∧ (∀ c, c ∈ controls (exec checkIfSubmitted p) →
          lockable c = true → c_disabled c = true)
  ∧ formPointerEvents (exec checkIfSubmitted p) = "none"
  ∧ (∀ c, c ∈ controls (exec checkIfSubmitted p) → starts_submission c = false)
  ∧ localStorage (exec checkIfSubmitted p) = localStorage p.
Proof.
  intros Hflag.
  set (p1 := exec (getItem (STORAGE_PREFIX +:+ "completed")) p).
  assert (Hrun : checkIfSubmitted p
                 = (lockForm;; showStatus "您已完成此問卷，請勿重複填寫。" "info") p1).
  { unfold checkIfSubmitted. rewrite run_bind. cbn [getItem].
    change (STORAGE_PREFIX +:+ "completed") with "music_survey_completed".
    rewrite Hflag. by rewrite bool_decide_eq_true_2. }
  assert (Hctl : controls (exec checkIfSubmitted p) = map lock_control (controls p)).
  { unfold exec at 1. rewrite Hrun. fold (exec (lockForm;; showStatus "您已完成此問卷，請勿重複填寫。" "info") p1).
    rewrite (exec_bind_normal _ _ p1 tt) by apply total_unit, lockForm_total.
    rewrite showStatus_controls. by rewrite lockForm_controls. }
  split; [|split; [exact Hctl|split; [|split; [|split]]]].
  - unfold eval. rewrite Hrun.
    fold (eval (lockForm;; showStatus "您已完成此問卷，請勿重複填寫。" "info") p1).
    by rewrite (eval_bind_normal _ _ p1 tt) by apply total_unit, lockForm_total.
  - intros c Hc Hl. rewrite Hctl in Hc. apply list_elem_of_fmap in Hc as (c0 & -> & _).
    unfold lock_control in *. destruct (lockable c0) eqn:E; [done|congruence].
  - unfold exec at 1. rewrite Hrun.
    fold (exec (lockForm;; showStatus "您已完成此問卷，請勿重複填寫。" "info") p1).
    rewrite (exec_bind_normal _ _ p1 tt) by apply total_unit, lockForm_total.
    apply lockForm_style.
  - intros c Hc. rewrite Hctl in Hc. apply list_elem_of_fmap in Hc as (c0 & -> & _).
    apply lock_control_blocks.
  - unfold exec at 1. rewrite Hrun.
    fold (exec (lockForm;; showStatus "您已完成此問卷，請勿重複填寫。" "info") p1).
    rewrite (exec_bind_normal _ _ p1 tt) by apply total_unit, lockForm_total.
    change (localStorage (exec lockForm p1) = localStorage p1).
    by apply lockForm_preserves.
Qed.

(** ** [getOrCreateUUID] *)

Lemma with_randomCalls_twice n m p :
  with_randomCalls n (with_randomCalls m p) = with_randomCalls n p.
Proof. reflexivity. Qed.

Lemma with_randomCalls_same p : with_randomCalls (randomCalls p) p = p.
Proof. by destruct p. Qed.

(** The replacement consumes one draw per [x] or [y] and touches nothing
    else of the page. *)
Lemma replace_xy_run env s : ∀ p,
  replace_xy s (uuid_digit env) p
  = (Normal (uuid_of_draws env s (randomCalls p)),
     with_randomCalls (randomCalls p + count_xy s) p).
Proof.
  induction s as [|c s IH]; intros p.
  - cbn. by rewrite Nat.add_0_r, with_randomCalls_same.
  - cbn [replace_xy uuid_of_draws count_xy].
    destruct (Ascii.eqb c "x" || Ascii.eqb c "y").
    + rewrite run_bind.
      change (uuid_digit env c p)
        with (Normal (digit_of_draw env c (randomCalls p)),
              with_randomCalls (S (randomCalls p)) p).
      cbv beta iota. rewrite run_bind, IH. cbv beta iota.
      rewrite run_ret, with_randomCalls_twice.
      do 2 f_equal. cbn. lia.
    + rewrite run_bind, IH. cbv beta iota. rewrite run_ret.
      by rewrite Nat.add_0_l.
Qed.

Lemma hex_digits_nonempty fuel : ∀ n acc, acc ≠ "" → JsNumber.hex_digits fuel n acc ≠ "".
Proof.
  induction fuel as [|k IH]; intros n acc Hacc; cbn; [done|].
  destruct (n / 16 =? 0); [done|]. by apply IH.
Qed.

Lemma toString16_nonempty v : JsNumber.toString16 v ≠ "".
Proof.
  unfold JsNumber.toString16. destruct (v <? 0); [done|].
  cbn [JsNumber.hex_digits]. destruct (v / 16 =? 0); [done|].
  by apply hex_digits_nonempty.
Qed.

Lemma append_nonempty (a b : string) : a ≠ "" → (a +:+ b) ≠ "".
Proof. by destruct a. Qed.

(** Whatever the draws, the generated identifier is not the empty string. *)
Lemma generated_uuid_nonempty env n : uuid_of_draws env uuid_template n ≠ "".
Proof.
  unfold uuid_template. cbn [uuid_of_draws Ascii.eqb Bool.eqb orb].
  apply append_nonempty, toString16_nonempty.
Qed.

Lemma truthy_Some s : s ≠ "" → JsString.truthy (Some s) = true.
Proof.
  intros H. cbn. destruct (String.eqb s "") eqn:E; [|done].
  by apply String.eqb_eq in E.
Qed.

(** The two paths of [getOrCreateUUID]. *)
Lemma getOrCreateUUID_stored env p u :
  localStorage p !! uuid_key = Some u → u ≠ "" →
  getOrCreateUUID env p
  = (Normal u, log_op (OpGetItem uuid_key) (localStorage p) p).
Proof.
  intros Hu Hne. unfold getOrCreateUUID. rewrite run_bind. cbn [getItem].
  change (STORAGE_PREFIX ++ "user_uuid")%string with uuid_key.
  rewrite Hu, (truthy_Some _ Hne). reflexivity.
Qed.

Lemma getOrCreateUUID_generated env p :
  JsString.truthy (localStorage p !! uuid_key) = false →
  let u := uuid_of_draws env uuid_template (randomCalls p) in
  eval (getOrCreateUUID env) p = Normal u
  ∧ localStorage (exec (getOrCreateUUID env) p) = <[uuid_key := u]> (localStorage p)
  ∧ storageTrace (exec (getOrCreateUUID env) p)
    = storageTrace p ++ [OpGetItem uuid_key; OpSetItem uuid_key u].
Proof.
  intros Hf u.
  assert (Hrun : getOrCreateUUID env p
          = (Normal u, log_op (OpSetItem uuid_key u) (<[uuid_key := u]> (localStorage p))
               (with_randomCalls (randomCalls p + count_xy uuid_template)
                  (log_op (OpGetItem uuid_key) (localStorage p) p)))).
  { unfold getOrCreateUUID. rewrite run_bind. cbn [getItem].
    change (STORAGE_PREFIX ++ "user_uuid")%string with uuid_key.
    rewrite Hf. rewrite run_bind, replace_xy_run. cbv beta iota.
    reflexivity. }
  unfold eval, exec. rewrite Hrun. cbn [fst snd].
  split; [done|split; [done|]].
  cbn. by rewrite <- app_assoc.
Qed.

(** [getOrCreateUUID] touches the storage and the count of draws only. *)
Lemma getOrCreateUUID_preserves {B} env (g : Page -> B) :
  (∀ ls tr p, g (with_storage ls tr p) = g p) →
  (∀ n p, g (with_randomCalls n p) = g p) →
  preserves g (getOrCreateUUID env).
Proof.
  intros Hs Hr p. unfold exec, getOrCreateUUID. rewrite run_bind. cbn [getItem].
  destruct (JsString.truthy _).
  - rewrite run_ret. cbn [snd]. unfold log_op. apply Hs.
  - rewrite run_bind, replace_xy_run. cbv beta iota.
    rewrite run_bind. cbn [setItem]. rewrite run_ret. cbn [snd].
    unfold log_op. by rewrite Hs, Hr, Hs.
Qed.

Lemma getOrCreateUUID_total env : total (getOrCreateUUID env).
Proof.
  intros p. unfold eval, getOrCreateUUID. rewrite run_bind. cbn [getItem].
  destruct (JsString.truthy _).
  - rewrite run_ret. eexists. reflexivity.
  - rewrite run_bind, replace_xy_run. cbv beta iota.
    rewrite run_bind. cbn [setItem]. rewrite run_ret. eexists. reflexivity.
Qed.

(** C3.  For every page, [getOrCreateUUID] returns an identifier [u] that
    is then stored under ["music_survey_user_uuid"]; when nothing was stored
    there, [u] is the freshly generated identifier and storing it is the
    only change to the storage.  Every later call, on any page whose storage
    still holds [u], returns [u] and leaves the storage as it is; so a
    second call right after the first returns the same value. *)
Theorem getOrCreateUUID_stable (env : Env) (p : Page) :
  ∃ u, eval (getOrCreateUUID env) p = Normal u
    ∧ localStorage (exec (getOrCreateUUID env) p) !! "music_survey_user_uuid" = Some u
    ∧ (localStorage p !! "music_survey_user_uuid" = None →
         u = uuid_of_draws env uuid_template (randomCalls p)
         ∧ localStorage (exec (getOrCreateUUID env) p)
           = <["music_survey_user_uuid" := u]> (localStorage p))
    ∧ (∀ env' q, localStorage q !! "music_survey_user_uuid" = Some u →
         eval (getOrCreateUUID env') q = Normal u
         ∧ localStorage (exec (getOrCreateUUID env') q) = localStorage q)
    ∧ eval (getOrCreateUUID env) (exec (getOrCreateUUID env) p) = Normal u
    ∧ localStorage (exec (getOrCreateUUID env) (exec (getOrCreateUUID env) p))
      = localStorage (exec (getOrCreateUUID env) p).
Proof.
  fold uuid_key.
  assert (Hlater : ∀ u, u ≠ "" → ∀ env' q, localStorage q !! uuid_key = Some u →
            eval (getOrCreateUUID env') q = Normal u
            ∧ localStorage (exec (getOrCreateUUID env') q) = localStorage q).
  { intros u Hne env' q Hq. unfold eval, exec.
    by rewrite (getOrCreateUUID_stored env' q u Hq Hne). }
  destruct (JsString.truthy (localStorage p !! uuid_key)) eqn:Ht.
  - destruct (localStorage p !! uuid_key) as [u|] eqn:Hu; [|done].
    assert (Hne : u ≠ "").
    { intros ->. discriminate Ht. }
    exists u. destruct (Hlater u Hne env p Hu) as [He Hs].
    split; [done|]. split; [by rewrite Hs|].
    split; [done|]. split; [by apply Hlater|].
    apply (Hlater u Hne env). by rewrite Hs.
  - destruct (getOrCreateUUID_generated env p Ht) as (He & Hs & _).
    set (u := uuid_of_draws env uuid_template (randomCalls p)) in *.
    assert (Hne : u ≠ "") by apply generated_uuid_nonempty.
    assert (Hst : localStorage (exec (getOrCreateUUID env) p) !! uuid_key = Some u).
    { rewrite Hs. apply lookup_insert_eq. }
    exists u. split; [done|]. split; [done|].
    split; [done|]. split; [by apply Hlater|].
    by apply (Hlater u Hne env).
Qed.

(** ** The shape of a generated identifier *)

(** [Math.random() * 16 | 0] is one of [0 .. 15] when the draw lies in
    the unit interval. *)
Lemma draw_int (q : Q) :
  (0 <= q)%Q → (q < 1)%Q → 0 <= JsNumber.toInt32 (q * 16) < 16.
Proof.
  destruct q as [n d]. unfold Qle, Qlt. cbn [Qnum Qden]. intros H0 H1.
  assert (Hr : 0 <= JsNumber.truncate ((n # d) * 16) < 16).
  { unfold JsNumber.truncate. cbn [Qmult Qnum Qden].
    rewrite Pos.mul_1_r. rewrite Z.quot_div_nonneg by lia.
    split; [apply Z.div_pos; lia|apply Z.div_lt_upper_bound; lia]. }
  unfold JsNumber.toInt32, JsNumber.wrap_int32.
  set (r := JsNumber.truncate _) in *.
  rewrite Z.mod_small by lia.
  destruct (r <? 2 ^ 31) eqn:E; [lia|]. apply Z.ltb_ge in E. lia.
Qed.

Lemma small_cases (r : Z) :
  0 <= r < 16 →
  r = 0 ∨ r = 1 ∨ r = 2 ∨ r = 3 ∨ r = 4 ∨ r = 5 ∨ r = 6 ∨ r = 7 ∨ r = 8
  ∨ r = 9 ∨ r = 10 ∨ r = 11 ∨ r = 12 ∨ r = 13 ∨ r = 14 ∨ r = 15.
Proof. lia. Qed.

(** An [x] becomes one lower-case hexadecimal digit. *)
Lemma digit_x env n :
  (0 <= Math_random env n)%Q → (Math_random env n < 1)%Q →
  ∃ c, digit_of_draw env "x" n = String c "" ∧ is_lower_hex c = true.
Proof.
  intros H0 H1. unfold digit_of_draw.
  pose proof (draw_int _ H0 H1) as Hr.
  set (r := JsNumber.toInt32 _) in *. clearbody r.
  destruct (small_cases r Hr) as
    [->|[->|[->|[->|[->|[->|[->|[->|[->|[->|[->|[->|[->|[->|[->| ->]]]]]]]]]]]]]]];
    eexists; split; vm_compute; reflexivity.
Qed.

(** The [y] becomes one of [8], [9], [a], [b]. *)
Lemma digit_y env n :
  (0 <= Math_random env n)%Q → (Math_random env n < 1)%Q →
  ∃ c, digit_of_draw env "y" n = String c "" ∧ is_variant c = true.
Proof.
  intros H0 H1. unfold digit_of_draw.
  pose proof (draw_int _ H0 H1) as Hr.
  set (r := JsNumber.toInt32 _) in *. clearbody r.
  destruct (small_cases r Hr) as
    [->|[->|[->|[->|[->|[->|[->|[->|[->|[->|[->|[->|[->|[->|[->| ->]]]]]]]]]]]]]]];
    eexists; split; vm_compute; reflexivity.
Qed.

Section UnitDraws.

Context (env : Env).
Hypothesis draws_in_unit_interval :
  ∀ n, (0 <= Math_random env n)%Q ∧ (Math_random env n < 1)%Q.

Lemma uuid_follows_template s : ∀ n,
  follows_template s (uuid_of_draws env s n) = true.
Proof.
  induction s as [|c s IH]; intros n; [done|].
  cbn [uuid_of_draws follows_template].
  destruct (draws_in_unit_interval n) as [H0 H1].
  destruct (Ascii.eqb c "x") eqn:Ex.
  - apply Ascii.eqb_eq in Ex as ->.
    destruct (digit_x env n H0 H1) as (d & -> & Hd).
    cbn [orb follows_template Ascii.eqb Bool.eqb].
    change (String d "" +:+ uuid_of_draws env s (S n))
      with (String d (uuid_of_draws env s (S n))).
    cbv beta iota. by rewrite Hd, IH.
  - destruct (Ascii.eqb c "y") eqn:Ey.
    + apply Ascii.eqb_eq in Ey as ->.
      destruct (digit_y env n H0 H1) as (d & -> & Hd).
      cbn [orb follows_template Ascii.eqb Bool.eqb].
      change (String d "" +:+ uuid_of_draws env s (S n))
        with (String d (uuid_of_draws env s (S n))).
      cbv beta iota. by rewrite Hd, IH.
    + cbn [orb]. cbv beta iota. by rewrite Ascii.eqb_refl, IH.
Qed.

End UnitDraws.

(** Deciding the test of a conditional in a hypothesis whose condition is
    closed. *)
Ltac decide_condition H :=
  repeat match type of H with
         | (if ?b then _ else _) = true =>
             let v := eval vm_compute in b in
             change b with v in H; cbv iota in H
         end.

(** Peeling one character off a string that follows a template. *)
Lemma follows_cons c t u :
  follows_template (String c t) u = true →
  ∃ d u', u = String d u'
    ∧ (if Ascii.eqb c "x" then is_lower_hex d
       else if Ascii.eqb c "y" then is_variant d
       else Ascii.eqb c d) = true
    ∧ follows_template t u' = true.
Proof.
  destruct u as [|d u']; [done|]. cbn [follows_template].
  intros [H1 H2]%andb_prop. eauto.
Qed.

Lemma follows_nil u : follows_template "" u = true → u = "".
Proof. by destruct u. Qed.

Ltac peel_template H :=
  let c := fresh "c" in
  let u := fresh "u" in
  let Hc := fresh "Hc" in
  apply follows_cons in H as (c & u & -> & Hc & H);
  decide_condition Hc;
  try (apply Ascii.eqb_eq in Hc; subst c).

Lemma positions_cons i c s :
  positions_ok i (String c s) = position_ok i c && positions_ok (S i) s.
Proof. reflexivity. Qed.

(** A string that follows the template of the script has the shape the
    position-by-position description asks for. *)
Lemma template_is_v4 u :
  follows_template uuid_template u = true → is_uuid_v4 u = true.
Proof.
  unfold uuid_template. intros H.
  do 36 peel_template H.
  apply follows_nil in H as ->.
  unfold is_uuid_v4. apply andb_true_intro. split; [reflexivity|].
  repeat (rewrite positions_cons; apply andb_true_intro;
          split; [first [assumption|reflexivity]|]).
  reflexivity.
Qed.

Definition sample_draws (n : nat) : Q := Z.of_nat (n * 7 mod 16) # 16.

Definition sample_env : Env :=
  mkEnv sample_draws 1793611200123 (fun _ => FetchResolved "opaque")
    (fun _ => 0%float) (fun _ => "0").

Definition empty_status : Status := mkStatus "" "" "" "".

Definition blank_page : Page :=
  mkPage ∅ [] [] "" "" empty_status [] [] [] [] [] 0 0 0.

Lemma sample_draws_unit n :
  (0 <= Math_random sample_env n)%Q ∧ (Math_random sample_env n < 1)%Q.
Proof.
  cbn [Math_random sample_env]. unfold sample_draws, Qle, Qlt. cbn [Qnum Qden].
  pose proof (Nat.mod_upper_bound (n * 7) 16). lia.
Defined.

(** C10.  Whenever [getOrCreateUUID] generates an identifier (nothing
    usable is stored under the key), and whatever the sequence of draws of
    [Math.random()] in the unit interval, the identifier returned and stored
    is a 36-character string with hyphens at positions 8, 13, 18 and 23, the
    character [4] at position 14, one of [8 9 a b] at position 19 and
    lower-case hexadecimal digits everywhere else. *)
Theorem generated_uuid_is_v4 (env : Env) (p : Page) :
  (∀ n, (0 <= Math_random env n)%Q ∧ (Math_random env n < 1)%Q) →
  JsString.truthy (localStorage p !! "music_survey_user_uuid") = false →
  ∃ u, eval (getOrCreateUUID env) p = Normal u
       ∧ localStorage (exec (getOrCreateUUID env) p) !! "music_survey_user_uuid" = Some u
       ∧ is_uuid_v4 u = true.
Proof.
  intros Hdraws Hnone. fold uuid_key in Hnone |- *.
  destruct (getOrCreateUUID_generated env p Hnone) as (He & Hs & _).
  eexists. split; [exact He|]. split.
  - rewrite Hs. apply lookup_insert_eq.
  - apply template_is_v4, uuid_follows_template, Hdraws.
Qed.

Lemma generated_uuid_is_v4_witness :
  ∃ u, eval (getOrCreateUUID sample_env) blank_page = Normal u
       ∧ localStorage (exec (getOrCreateUUID sample_env) blank_page)
           !! "music_survey_user_uuid" = Some u
       ∧ is_uuid_v4 u = true.
Proof.
  apply (generated_uuid_is_v4 sample_env blank_page).
  - exact sample_draws_unit.
  - reflexivity.
Defined.

(** ** A sample page *)

Definition checkbox (name value : string) (checked : bool) : Control :=
  mkControl TInput "checkbox" name value checked "" checked false false "" (Some 0%nat).

Definition sample_controls : list Control :=
  [checkbox "styles_soft_relaxing" "classical" true;
   checkbox "styles_soft_relaxing" "jazz" false;
   checkbox "styles_intense_emotional" "metal" true;
   mkControl TInput "radio" "age" "18-25" true "" false true false "" (Some 2%nat);
   mkControl TTextarea "" "comments" "calm & slow" false "" false false false "" None;
   mkControl TSelect "" "frequency" "daily" false "daily" false false false "" None;
   mkControl TButton "submit" "" "" false "" false false false "提交問卷" None].

Definition sample_audio : Audio :=
  mkAudio "" (Some "https://example.org/audio/track1.mp3") 0%float false [].

Definition sample_page : Page :=
  mkPage ∅ [] sample_controls "" "" empty_status [sample_audio] [] [] [] [] 0 0 0.

(** The same page in a browser that has already completed the survey. *)
Definition returning_page : Page :=
  with_storage {[ "music_survey_completed" := "true" ]} [] sample_page.

Lemma checkIfSubmitted_locks_witness :
  eval checkIfSubmitted returning_page = Normal tt
  ∧ controls (exec checkIfSubmitted returning_page)
    = map lock_control (controls returning_page)
  ∧ (∀ c, c ∈ controls (exec checkIfSubmitted returning_page) →
          lockable c = true → c_disabled c = true)
  ∧ formPointerEvents (exec checkIfSubmitted returning_page) = "none"
  ∧ (∀ c, c ∈ controls (exec checkIfSubmitted returning_page) →
          starts_submission c = false)
  ∧ localStorage (exec checkIfSubmitted returning_page) = localStorage returning_page.
Proof. apply (checkIfSubmitted_locks returning_page). reflexivity. Defined.

(** ** Validation *)

Lemma matches_checkbox name c :
  matches (sel_checkbox name) c
  = Tag_eqb (c_tag c) TInput && String.eqb (c_type c) "checkbox"
    && String.eqb (c_name c) name.
Proof. unfold matches, sel_checkbox, matches_compound. cbn. apply orb_false_r. Qed.

(** Looking the matched positions up again finds the matched controls. *)
Lemma checked_among_matching sel : ∀ cs pre,
  existsb (fun i => from_option c_checked false ((pre ++ cs) !! i))
    (matching_from sel (length pre) cs)
  = existsb (fun c => matches sel c && c_checked c) cs.
Proof.
  induction cs as [|c cs IH]; intros pre; [done|].
  cbn [matching_from existsb].
  assert (Hnext : existsb (fun i => from_option c_checked false ((pre ++ c :: cs) !! i))
                    (matching_from sel (S (length pre)) cs)
                  = existsb (fun c => matches sel c && c_checked c) cs).
  { rewrite <- (IH (pre ++ [c])). rewrite <- app_assoc, length_app. cbn.
    by rewrite Nat.add_1_r. }
  destruct (matches sel c) eqn:E; cbn [existsb andb orb].
  - rewrite Hnext. f_equal.
    rewrite lookup_app_r by lia. by rewrite Nat.sub_diag.
  - exact Hnext.
Qed.

Lemma isChecked_spec p name :
  existsb (fun i => from_option c_checked false (controls p !! i))
    (matching_from (sel_checkbox name) 0 (controls p))
  = has_checked_box p name.
Proof.
  pose proof (checked_among_matching (sel_checkbox name) (controls p) []) as H.
  cbn [app length] in H. rewrite H. clear H. unfold has_checked_box.
  generalize (controls p). intros cs.
  induction cs as [|c cs IH]; [done|].
  cbn [existsb]. by rewrite IH, matches_checkbox.
Qed.

Lemma showStatus_total msg ty : total (showStatus msg ty).
Proof. apply total_modify. Qed.

(** [validateCheckboxGroups] always returns; it answers [true] exactly when
    every group has a checked box, and then it has changed nothing. *)
Lemma validateGroups_run groups : ∀ p,
  eval (validateGroups groups) p
  = Normal (forallb (fun g => has_checked_box p (fst g)) groups)
  ∧ (forallb (fun g => has_checked_box p (fst g)) groups = true →
     exec (validateGroups groups) p = p).
Proof.
  induction groups as [|[name message] rest IH]; intros p; [done|].
  cbn [validateGroups forallb fst].
  unfold eval, exec. rewrite run_bind. cbn [querySelectorAll gets].
  rewrite run_bind. cbn [gets]. rewrite isChecked_spec.
  destruct (has_checked_box p name) eqn:E; cbn [negb andb].
  - apply IH.
  - split; [|done].
    rewrite run_bind. cbn [showStatus modify]. rewrite run_bind.
    cbn [querySelector gets]. rewrite run_bind. cbn [gets].
    rewrite run_bind.
    match goal with
    | |- context [match ?o with Some b => scrollIntoView b | None => mret () end] =>
        destruct o
    end; reflexivity.
Qed.

Lemma validateGroups_preserves {B} (g : Page -> B) groups :
  (∀ s p, g (with_status s p) = g p) →
  (∀ l p, g (with_scrolledTo l p) = g p) →
  preserves g (validateGroups groups).
Proof.
  intros Hs Hl. induction groups as [|[name message] rest IH]; [apply preserves_ret|].
  cbn [validateGroups].
  apply preserves_bind; [apply preserves_gets|]. intros checkboxes.
  apply preserves_bind; [apply preserves_gets|]. intros isChecked.
  destruct (negb isChecked); [|exact IH].
  apply preserves_bind; [by apply preserves_modify|]. intros _.
  apply preserves_bind; [apply preserves_gets|]. intros first.
  apply preserves_bind; [apply preserves_gets|]. intros block.
  apply preserves_bind; [|intros; apply preserves_ret].
  destruct block; [by apply preserves_modify|apply preserves_ret].
Qed.

Lemma validateCheckboxGroups_spec p :
  eval validateCheckboxGroups p
  = Normal (has_checked_box p "styles_soft_relaxing"
            && has_checked_box p "styles_intense_emotional").
Proof.
  unfold validateCheckboxGroups. rewrite (proj1 (validateGroups_run _ p)).
  cbn [requiredGroups forallb fst]. by rewrite andb_true_r.
Qed.

(** The listener on a page that fails validation. *)
Lemma onSubmit_invalid_groups env p :
  eval validateCheckboxGroups p = Normal false →
  onSubmit env p = (Normal tt, exec validateCheckboxGroups p).
Proof.
  intros H. unfold onSubmit. rewrite run_bind, (run_eq validateCheckboxGroups p), H.
  reflexivity.
Qed.

Lemma onSubmit_groups_ok env p :
  eval validateCheckboxGroups p = Normal true →
  onSubmit env p
  = (valid ← checkValidity;
     if negb valid
     then showStatus "請完成所有必填項目" "error";; reportValidity
     else try_catch (submit_try env) submit_catch) p.
Proof.
  intros H. unfold onSubmit at 1. rewrite run_bind, (run_eq validateCheckboxGroups p), H.
  cbv beta iota. cbn [negb].
  assert (Hp : exec validateCheckboxGroups p = p).
  { apply validateGroups_run.
    unfold validateCheckboxGroups in H. rewrite (proj1 (validateGroups_run _ p)) in H.
    congruence. }
  by rewrite Hp.
Qed.

Lemma onSubmit_invalid_form env p :
  eval validateCheckboxGroups p = Normal true →
  eval checkValidity p = Normal false →
  onSubmit env p
  = (Normal tt,
     with_validityReports (S (validityReports p))
       (exec (showStatus "請完成所有必填項目" "error") p)).
Proof.
  intros Hg Hv. rewrite (onSubmit_groups_ok env p Hg).
  rewrite run_bind, (run_eq checkValidity p), Hv. reflexivity.
Qed.

(** C4.  When validation fails, because one of the two required checkbox
    groups has no checked box (and then [validateCheckboxGroups] returns
    [false]) or because [form.checkValidity()] is false, the submit listener
    returns normally having sent no request, made no call on [localStorage]
    (so the completed flag and everything else in it are as before), set no
    timer and left the controls alone; the status shows an error. *)
Theorem invalid_submission_sends_nothing (env : Env) (p : Page) :
  has_checked_box p "styles_soft_relaxing" = false
  ∨ has_checked_box p "styles_intense_emotional" = false
  ∨ eval checkValidity p = Normal false →
  eval (onSubmit env) p = Normal tt
  ∧ requests (exec (onSubmit env) p) = requests p
  ∧ localStorage (exec (onSubmit env) p) = localStorage p
  ∧ storageTrace (exec (onSubmit env) p) = storageTrace p
  ∧ timers (exec (onSubmit env) p) = timers p
  ∧ controls (exec (onSubmit env) p) = controls p
  ∧ s_className (status (exec (onSubmit env) p)) = "error"
  ∧ (has_checked_box p "styles_soft_relaxing" = false
     ∨ has_checked_box p "styles_intense_emotional" = false →
     eval validateCheckboxGroups p = Normal false).
Proof.
  intros H.
  pose proof (validateCheckboxGroups_spec p) as Hspec.
  destruct (has_checked_box p "styles_soft_relaxing"
            && has_checked_box p "styles_intense_emotional") eqn:Hb.
  - apply andb_prop in Hb as [Hb1 Hb2].
    destruct H as [H|[H|H]]; [congruence|congruence|].
    unfold eval at 1, exec. rewrite (onSubmit_invalid_form env p Hspec H).
    cbn [fst snd]. repeat split; try done.
    intros [?|?]; congruence.
  - unfold eval at 1, exec. rewrite (onSubmit_invalid_groups env p Hspec).
    cbn [fst snd].
    fold (exec validateCheckboxGroups p).
    unfold validateCheckboxGroups.
    rewrite !(validateGroups_preserves _ requiredGroups) by done.
    repeat split; try done.
    (* the status after the failing group *)
    unfold requiredGroups, validateGroups, exec.
    rewrite run_bind. cbn [querySelectorAll gets]. rewrite run_bind. cbn [gets].
    rewrite isChecked_spec.
    destruct (has_checked_box p "styles_soft_relaxing") eqn:E1; cbn [negb].
    + rewrite run_bind. cbn [querySelectorAll gets]. rewrite run_bind. cbn [gets].
      rewrite isChecked_spec.
      cbn [andb] in Hb. rewrite Hb. cbn [negb].
      rewrite run_bind. cbn [showStatus modify]. rewrite run_bind.
      cbn [querySelector gets]. rewrite run_bind. cbn [gets]. rewrite run_bind.
      match goal with
      | |- context [match ?o with Some b => scrollIntoView b | None => mret () end] =>
          destruct o
      end; reflexivity.
    + rewrite run_bind. cbn [showStatus modify]. rewrite run_bind.
      cbn [querySelector gets]. rewrite run_bind. cbn [gets]. rewrite run_bind.
      match goal with
      | |- context [match ?o with Some b => scrollIntoView b | None => mret () end] =>
          destruct o
      end; reflexivity.
Qed.

(** ** The submit listener on a valid form *)

(** What the listener does once the response is opaque. *)
Definition submit_success : M unit :=
  showStatus "提交成功！感謝您的參與" "success";;
  form_reset;;
  clearSurveyStorage;;
  setItem completed_key "true";;
  setTimeout CallLockForm 1500.

(** The page while the request is in flight: the identifier is in the
    storage, the status says "submitting", the submit button (at position
    [i]) is disabled and relabelled, and the request has left. *)
Definition page_sending (env : Env) (p : Page) (i : nat) : Page :=
  let q := exec (update_control (set_textContent "處理中...") i)
             (exec (update_control (set_disabled true) i)
                (exec (showStatus "提交中..." "info")
                   (exec (getOrCreateUUID env) p))) in
  with_requests (requests q ++ [submit_request env p]) q.

(** The page after the [catch] block has run on [q]. *)
Definition page_failed (q : Page) (i : nat) : Page :=
  exec (showStatus "提交失敗: 請檢查網路後重試" "error")
    (exec (update_control (set_textContent "提交問卷") i)
       (exec (update_control (set_disabled false) i)
          (exec (console_error "提交失敗:") q))).

Lemma submit_try_run env p i :
  head (matching_from sel_submit 0 (controls p)) = Some i →
  submit_try env p
  = match fetch_outcome env (submit_request env p) with
    | FetchResolved ty =>
        (if String.eqb ty "opaque" then submit_success
         else throw (Error "伺服器返回異常響應")) (page_sending env p i)
    | FetchRejected reason => (Throw (TypeError reason), page_sending env p i)
    end.
Proof.
  intros Hbtn. unfold submit_try.
  rewrite run_bind. cbn [new_FormData gets].
  rewrite run_bind, (run_eq (getOrCreateUUID env) p).
  destruct (getOrCreateUUID_total env p) as [u Hu]. rewrite Hu. cbv beta iota.
  assert (Hc : controls (exec (getOrCreateUUID env) p) = controls p)
    by (by apply getOrCreateUUID_preserves).
  rewrite run_bind. cbn [showStatus modify]. rewrite run_bind.
  cbn [querySelector gets controls with_status].
  rewrite !Hc, !Hbtn. cbv beta iota.
  rewrite run_bind. cbn [update_control_opt update_control modify].
  rewrite run_bind. cbn [update_control_opt update_control modify].
  rewrite run_bind.
  assert (Hreq : mkRequest GAS_WEB_APP_URL "POST" "no-cors"
                   "application/x-www-form-urlencoded"
                   (UrlEncoded.serialize
                      ((omap entry_of (controls p)
                        ++ [("submission_time", JsDate.toISOString (Date_now env))])
                       ++ [("uuid", u)]))
                 = submit_request env p).
  { unfold submit_request, submit_entries. rewrite Hu. by rewrite <- app_assoc. }
  rewrite Hreq. unfold await_fetch.
  destruct (fetch_outcome env (submit_request env p)) as [reason|ty]; reflexivity.
Qed.

(** An update that keeps what a selector looks at keeps what it selects. *)
Lemma matching_alter sel f :
  (∀ c, matches sel (f c) = matches sel c) →
  ∀ cs i j, matching_from sel j (alter f i cs) = matching_from sel j cs.
Proof.
  intros Hf. induction cs as [|c cs IH]; intros i j; [done|].
  destruct i as [|i]; cbn [alter list_alter matching_from].
  - by rewrite Hf.
  - change (list_alter f i cs) with (alter f i cs). by rewrite IH.
Qed.

Lemma matches_set_disabled sel b c : matches sel (set_disabled b c) = matches sel c.
Proof. reflexivity. Qed.

Lemma matches_set_textContent sel t c : matches sel (set_textContent t c) = matches sel c.
Proof. reflexivity. Qed.

Lemma page_sending_controls env p i :
  controls (page_sending env p i)
  = alter (set_textContent "處理中...") i (alter (set_disabled true) i (controls p)).
Proof.
  unfold page_sending. cbn [controls with_requests].
  change (controls (exec (update_control (set_textContent "處理中...") i)
                      (exec (update_control (set_disabled true) i)
                         (exec (showStatus "提交中..." "info")
                            (exec (getOrCreateUUID env) p)))))
    with (alter (set_textContent "處理中...") i
            (alter (set_disabled true) i (controls (exec (getOrCreateUUID env) p)))).
  by rewrite (getOrCreateUUID_preserves env controls).
Qed.

Lemma page_sending_button env p i :
  head (matching_from sel_submit 0 (controls p)) = Some i →
  head (matching_from sel_submit 0 (controls (page_sending env p i))) = Some i.
Proof.
  intros H. rewrite page_sending_controls.
  rewrite (matching_alter sel_submit _ (matches_set_textContent _ _)).
  by rewrite (matching_alter sel_submit _ (matches_set_disabled _ _)).
Qed.

Lemma page_sending_storage env p i :
  localStorage (page_sending env p i) = localStorage (exec (getOrCreateUUID env) p)
  ∧ storageTrace (page_sending env p i) = storageTrace (exec (getOrCreateUUID env) p).
Proof. done. Qed.

Lemma page_sending_requests env p i :
  requests (page_sending env p i) = requests p ++ [submit_request env p].
Proof.
  unfold page_sending. cbn [requests with_requests]. f_equal.
  change (requests (exec (getOrCreateUUID env) p) = requests p).
  by apply getOrCreateUUID_preserves.
Qed.

Lemma page_sending_timers env p i : timers (page_sending env p i) = timers p.
Proof.
  change (timers (exec (getOrCreateUUID env) p) = timers p).
  by apply getOrCreateUUID_preserves.
Qed.

Lemma submit_catch_run e q i :
  head (matching_from sel_submit 0 (controls q)) = Some i →
  submit_catch e q = (Normal tt, page_failed q i).
Proof.
  intros Hbtn. unfold submit_catch.
  rewrite run_bind. cbn [console_error modify]. rewrite run_bind.
  cbn [querySelector gets controls with_consoleErrors]. rewrite Hbtn.
  reflexivity.
Qed.

Lemma submit_catch_no_button e q :
  head (matching_from sel_submit 0 (controls q)) = None →
  submit_catch e q
  = (Throw (TypeError "Cannot set properties of null"),
     exec (console_error "提交失敗:") q).
Proof.
  intros Hbtn. unfold submit_catch.
  rewrite run_bind. cbn [console_error modify]. rewrite run_bind.
  cbn [querySelector gets controls with_consoleErrors]. rewrite Hbtn.
  reflexivity.
Qed.

Lemma submit_try_no_button env p :
  head (matching_from sel_submit 0 (controls p)) = None →
  submit_try env p
  = (Throw (TypeError "Cannot set properties of null"),
     exec (showStatus "提交中..." "info") (exec (getOrCreateUUID env) p)).
Proof.
  intros Hbtn. unfold submit_try.
  rewrite run_bind. cbn [new_FormData gets].
  rewrite run_bind, (run_eq (getOrCreateUUID env) p).
  destruct (getOrCreateUUID_total env p) as [u Hu]. rewrite Hu. cbv beta iota.
  assert (Hc : controls (exec (getOrCreateUUID env) p) = controls p)
    by (by apply getOrCreateUUID_preserves).
  rewrite run_bind. cbn [showStatus modify]. rewrite run_bind.
  cbn [querySelector gets controls with_status].
  rewrite !Hc, !Hbtn. reflexivity.
Qed.

(** The form passes both validations. *)
Definition valid_form (p : Page) : Prop :=
  eval validateCheckboxGroups p = Normal true ∧ eval checkValidity p = Normal true.

Lemma onSubmit_valid env p :
  valid_form p → onSubmit env p = try_catch (submit_try env) submit_catch p.
Proof.
  intros [Hg Hv]. rewrite (onSubmit_groups_ok env p Hg).
  rewrite run_bind, (run_eq checkValidity p), Hv. reflexivity.
Qed.

Lemma submit_success_total : total submit_success.
Proof.
  unfold submit_success.
  apply total_bind; [apply showStatus_total|]. intros _.
  apply total_bind; [apply total_modify|]. intros _.
  apply total_bind; [apply clearSurveyStorage_total|]. intros _.
  apply total_bind; [by eexists|]. intros _. apply total_modify.
Qed.

(** The three ways a valid submission ends. *)
Lemma onSubmit_opaque env p i :
  valid_form p →
  head (matching_from sel_submit 0 (controls p)) = Some i →
  fetch_outcome env (submit_request env p) = FetchResolved "opaque" →
  onSubmit env p = submit_success (page_sending env p i).
Proof.
  intros Hv Hbtn Hf. rewrite (onSubmit_valid env p Hv). unfold try_catch.
  rewrite (submit_try_run env p i Hbtn), Hf. cbn [String.eqb Ascii.eqb Bool.eqb].
  cbv beta iota.
  rewrite (run_eq submit_success). by rewrite (total_unit _ _ submit_success_total).
Qed.

Definition fetch_failed (o : FetchOutcome) : Prop :=
  match o with
  | FetchRejected _ => True
  | FetchResolved ty => ty ≠ "opaque"
  end.

Lemma onSubmit_failed env p i :
  valid_form p →
  head (matching_from sel_submit 0 (controls p)) = Some i →
  fetch_failed (fetch_outcome env (submit_request env p)) →
  onSubmit env p = (Normal tt, page_failed (page_sending env p i) i).
Proof.
  intros Hv Hbtn Hf. rewrite (onSubmit_valid env p Hv). unfold try_catch.
  rewrite (submit_try_run env p i Hbtn).
  pose proof (page_sending_button env p i Hbtn) as Hb.
  destruct (fetch_outcome env (submit_request env p)) as [reason|ty].
  - by apply submit_catch_run.
  - cbn in Hf. destruct (String.eqb ty "opaque") eqn:E.
    + by apply String.eqb_eq in E.
    + change (throw (Error "伺服器返回異常響應") (page_sending env p i))
        with (@Throw unit (Error "伺服器返回異常響應"), page_sending env p i).
      by apply submit_catch_run.
Qed.

Lemma onSubmit_no_button env p :
  valid_form p →
  head (matching_from sel_submit 0 (controls p)) = None →
  eval (onSubmit env) p = Throw (TypeError "Cannot set properties of null")
  ∧ requests (exec (onSubmit env) p) = requests p.
Proof.
  intros Hv Hbtn. unfold eval, exec. rewrite (onSubmit_valid env p Hv). unfold try_catch.
  rewrite (submit_try_no_button env p Hbtn).
  rewrite submit_catch_no_button.
  - split; [done|]. cbn [snd].
    change (requests (exec (getOrCreateUUID env) p) = requests p).
    by apply getOrCreateUUID_preserves.
  - change (head (matching_from sel_submit 0 (controls (exec (getOrCreateUUID env) p))) = None).
    by rewrite (getOrCreateUUID_preserves env controls).
Qed.

Lemma clearSurveyStorage_preserves {B} (g : Page -> B) :
  (∀ ls tr p, g (with_storage ls tr p) = g p) → preserves g clearSurveyStorage.
Proof.
  intros Hs. unfold clearSurveyStorage.
  apply preserves_bind; [intros p; apply Hs|]. intros keys.
  apply preserves_forEach. intros k.
  destruct (JsString.startsWith k _); [intros p; apply Hs|apply preserves_ret].
Qed.

Lemma submit_success_storage q k :
  localStorage (exec submit_success q) !! k
  = if decide (k = "music_survey_completed") then Some "true"
    else if JsString.startsWith k audio_prefix then None
    else localStorage q !! k.
Proof.
  unfold submit_success.
  rewrite (exec_bind_normal _ _ _ tt) by done.
  rewrite (exec_bind_normal _ _ _ tt) by done.
  rewrite (exec_bind_normal _ _ _ tt) by apply total_unit, clearSurveyStorage_total.
  rewrite (exec_bind_normal _ _ _ tt) by done.
  change (<[completed_key := "true"]>
            (localStorage (exec clearSurveyStorage
               (exec form_reset (exec (showStatus "提交成功！感謝您的參與" "success") q))))
          !! k = if decide (k = "music_survey_completed") then Some "true"
                 else if JsString.startsWith k audio_prefix then None
                 else localStorage q !! k).
  change completed_key with "music_survey_completed".
  case_decide as Hk.
  - subst k. apply lookup_insert_eq.
  - rewrite lookup_insert_ne by done. by rewrite clearSurveyStorage_lookup.
Qed.

Lemma submit_success_effects q :
  timers (exec submit_success q) = timers q ++ [mkTimer 1500 CallLockForm]
  ∧ controls (exec submit_success q) = map reset_control (controls q)
  ∧ requests (exec submit_success q) = requests q.
Proof.
  unfold submit_success.
  rewrite (exec_bind_normal _ _ _ tt) by done.
  rewrite (exec_bind_normal _ _ _ tt) by done.
  rewrite (exec_bind_normal _ _ _ tt) by apply total_unit, clearSurveyStorage_total.
  rewrite (exec_bind_normal _ _ _ tt) by done.
  set (q2 := exec form_reset (exec (showStatus "提交成功！感謝您的參與" "success") q)).
  change (timers (exec clearSurveyStorage q2) ++ [mkTimer 1500 CallLockForm]
          = timers q ++ [mkTimer 1500 CallLockForm]
          ∧ controls (exec clearSurveyStorage q2) = map reset_control (controls q)
          ∧ requests (exec clearSurveyStorage q2) = requests q).
  by rewrite !clearSurveyStorage_preserves.
Qed.

Lemma reset_keeps_disabled c : c_disabled (reset_control c) = c_disabled c.
Proof. reflexivity. Qed.

(** A pending timer runs [lockForm]. *)
Lemma fireTimer_locks p t rest :
  timers p = t :: rest →
  controls (exec fireTimer p) = map lock_control (controls p)
  ∧ localStorage (exec fireTimer p) = localStorage p
  ∧ timers (exec fireTimer p) = rest.
Proof.
  intros Ht. unfold fireTimer, exec. rewrite run_bind. cbn [gets]. rewrite Ht.
  rewrite run_bind. cbn [modify]. destruct t as [d []]. cbn [run_callback t_callback].
  fold (exec lockForm (with_timers rest p)).
  rewrite lockForm_controls. by rewrite !lockForm_preserves.
Qed.

Lemma audio_key_not_flag k :
  JsString.startsWith k "music_survey_audio_" = true → k ≠ "music_survey_completed".
Proof. intros H ->. discriminate H. Qed.

Lemma querySelector_found sel p i :
  eval (querySelector sel) p = Normal (Some i) →
  head (matching_from sel 0 (controls p)) = Some i.
Proof. unfold eval. cbn. congruence. Qed.

(** C2.  When the form is valid, its submit button is found and the
    response to the request has type ['opaque'], the listener returns
    normally with ["true"] stored under ["music_survey_completed"], with no
    entry left whose key starts with ["music_survey_audio_"], and with
    [lockForm] set to run after 1500 ms; once that timer expires every
    [input], [button] and [textarea] control is disabled, the storage being
    as the listener left it. *)
Theorem opaque_response_completes (env : Env) (p : Page) (i : nat) :
  eval validateCheckboxGroups p = Normal true →
  eval checkValidity p = Normal true →
  eval (querySelector sel_submit) p = Normal (Some i) →
  fetch_outcome env (submit_request env p) = FetchResolved "opaque" →
  eval (onSubmit env) p = Normal tt
  ∧ localStorage (exec (onSubmit env) p) !! "music_survey_completed" = Some "true"
  ∧ (∀ k, JsString.startsWith k "music_survey_audio_" = true →
          localStorage (exec (onSubmit env) p) !! k = None)
  ∧ timers (exec (onSubmit env) p) = timers p ++ [mkTimer 1500 CallLockForm]
  ∧ (∀ c, c ∈ controls (exec fireTimer (exec (onSubmit env) p)) →
          lockable c = true → c_disabled c = true)
  ∧ localStorage (exec fireTimer (exec (onSubmit env) p))
    = localStorage (exec (onSubmit env) p).
Proof.
  intros Hg Hv Hbtn%querySelector_found Hf.
  pose proof (onSubmit_opaque env p i (conj Hg Hv) Hbtn Hf) as Hrun.
  assert (Hexec : exec (onSubmit env) p = exec submit_success (page_sending env p i)).
  { unfold exec. by rewrite Hrun. }
  assert (Heval : eval (onSubmit env) p = eval submit_success (page_sending env p i)).
  { unfold eval. by rewrite Hrun. }
  rewrite Hexec, Heval.
  destruct (submit_success_effects (page_sending env p i)) as (Ht & Hc & _).
  rewrite page_sending_timers in Ht.
  assert (Hpending : ∃ t rest, timers (exec submit_success (page_sending env p i)) = t :: rest).
  { rewrite Ht. destruct (timers p); cbn; eauto. }
  destruct Hpending as (t & rest & Hpending).
  destruct (fireTimer_locks _ _ _ Hpending) as (Hlock & Hls & _).
  split.
  { apply total_unit, submit_success_total. }
  split; [by rewrite submit_success_storage|].
  split.
  { intros k Hk. rewrite submit_success_storage.
    case_decide as E; [by apply audio_key_not_flag in Hk|].
    unfold audio_prefix. by rewrite Hk. }
  split; [exact Ht|]. split; [|exact Hls].
  intros c Hin Hl. rewrite Hlock in Hin.
  apply list_elem_of_fmap in Hin as (c0 & -> & _).
  unfold lock_control in *. destruct (lockable c0) eqn:E; [done|congruence].
Qed.

Lemma opaque_response_completes_witness :
  eval (onSubmit sample_env) sample_page = Normal tt
  ∧ localStorage (exec (onSubmit sample_env) sample_page) !! "music_survey_completed"
    = Some "true"
  ∧ (∀ k, JsString.startsWith k "music_survey_audio_" = true →
          localStorage (exec (onSubmit sample_env) sample_page) !! k = None)
  ∧ timers (exec (onSubmit sample_env) sample_page)
    = timers sample_page ++ [mkTimer 1500 CallLockForm]
  ∧ (∀ c, c ∈ controls (exec fireTimer (exec (onSubmit sample_env) sample_page)) →
          lockable c = true → c_disabled c = true)
  ∧ localStorage (exec fireTimer (exec (onSubmit sample_env) sample_page))
    = localStorage (exec (onSubmit sample_env) sample_page).
Proof.
  apply (opaque_response_completes sample_env sample_page 6); reflexivity.
Defined.

Lemma fetch_outcome_cases o :
  o = FetchResolved "opaque" ∨ fetch_failed o.
Proof.
  destruct o as [r|ty]; [by right|].
  destruct (decide (ty = "opaque")) as [->|Hne]; [by left|by right].
Qed.

Lemma page_failed_effects q i :
  requests (page_failed q i) = requests q
  ∧ localStorage (page_failed q i) = localStorage q
  ∧ storageTrace (page_failed q i) = storageTrace q
  ∧ timers (page_failed q i) = timers q
  ∧ controls (page_failed q i)
    = alter (set_textContent "提交問卷") i (alter (set_disabled false) i (controls q))
  ∧ status (page_failed q i)
    = mkStatus "提交失敗: 請檢查網路後重試" "error" (s_opacity (status q))
        (s_fontWeight (status q)).
Proof. done. Qed.

(** C5.  On a form that passes both validations, every request the
    listener sends goes to the backend URL by POST, and its body is the
    URL-encoded list made of the entries of the form followed by
    [submission_time], the clock in ISO format, and [uuid], the value of
    [getOrCreateUUID]; exactly one such request leaves when the submit
    button is found, and nothing else is sent. *)
Theorem payload_enrichment (env : Env) (p : Page) :
  eval validateCheckboxGroups p = Normal true →
  eval checkValidity p = Normal true →
  ∃ u sent,
    eval (getOrCreateUUID env) p = Normal u
    ∧ requests (exec (onSubmit env) p) = requests p ++ sent
    ∧ (∀ req, req ∈ sent →
         r_url req = GAS_WEB_APP_URL ∧ r_method req = "POST"
         ∧ r_body req
           = UrlEncoded.serialize
               (new_entries p
                ++ [("submission_time", JsDate.toISOString (Date_now env));
                    ("uuid", u)]))
    ∧ (is_Some (head (matching_from sel_submit 0 (controls p))) →
       length sent = 1%nat).
Proof.
  intros Hg Hv.
  destruct (getOrCreateUUID_total env p) as [u Hu].
  assert (Hreq : submit_request env p
                 = mkRequest GAS_WEB_APP_URL "POST" "no-cors"
                     "application/x-www-form-urlencoded"
                     (UrlEncoded.serialize
                        (new_entries p
                         ++ [("submission_time", JsDate.toISOString (Date_now env));
                             ("uuid", u)]))).
  { unfold submit_request, submit_entries. by rewrite Hu. }
  exists u.
  destruct (head (matching_from sel_submit 0 (controls p))) as [i|] eqn:Hbtn.
  - exists [submit_request env p]. split; [done|].
    split.
    + destruct (fetch_outcome_cases (fetch_outcome env (submit_request env p))) as [Hf|Hf].
      * unfold exec. rewrite (onSubmit_opaque env p i (conj Hg Hv) Hbtn Hf).
        fold (exec submit_success (page_sending env p i)).
        rewrite (proj2 (proj2 (submit_success_effects _))).
        apply page_sending_requests.
      * unfold exec. rewrite (onSubmit_failed env p i (conj Hg Hv) Hbtn Hf).
        cbn [snd]. rewrite (proj1 (page_failed_effects _ _)).
        apply page_sending_requests.
    + split; [|done]. intros req Hin. apply list_elem_of_singleton in Hin as ->.
      by rewrite Hreq.
  - exists []. split; [done|]. split.
    + rewrite app_nil_r. by apply onSubmit_no_button.
    + split; [|by intros [? ?]]. intros req Hin. by apply elem_of_nil in Hin.
Qed.

Lemma payload_enrichment_witness :
  ∃ u sent,
    eval (getOrCreateUUID sample_env) sample_page = Normal u
    ∧ requests (exec (onSubmit sample_env) sample_page) = requests sample_page ++ sent
    ∧ (∀ req, req ∈ sent →
         r_url req = GAS_WEB_APP_URL ∧ r_method req = "POST"
         ∧ r_body req
           = UrlEncoded.serialize
               (new_entries sample_page
                ++ [("submission_time", JsDate.toISOString (Date_now sample_env));
                    ("uuid", u)]))
    ∧ (is_Some (head (matching_from sel_submit 0 (controls sample_page))) →
       length sent = 1%nat).
Proof. apply (payload_enrichment sample_env sample_page); reflexivity. Defined.

(** The body of the request of the sample page, spelled out. *)
Example sample_body :
  map r_body (requests (exec (onSubmit sample_env) sample_page))
  = ["styles_soft_relaxing=classical&styles_intense_emotional=metal&age=18-25&comments=calm+%26+slow&frequency=daily&submission_time=2026-11-02T09%3A20%3A00.123Z&uuid=07e5c3a1-8f6d-44b2-907e-5c3a18f6d4b2"].
Proof. vm_compute. reflexivity. Qed.

(** The sample page with no box of the second group checked. *)
Definition incomplete_page : Page :=
  with_controls (alter (fun c => checkbox (c_name c) (c_value c) false) 2%nat sample_controls)
    sample_page.

Lemma invalid_submission_sends_nothing_witness :
  eval (onSubmit sample_env) incomplete_page = Normal tt
  ∧ requests (exec (onSubmit sample_env) incomplete_page) = requests incomplete_page
  ∧ localStorage (exec (onSubmit sample_env) incomplete_page) = localStorage incomplete_page
  ∧ storageTrace (exec (onSubmit sample_env) incomplete_page) = storageTrace incomplete_page
  ∧ timers (exec (onSubmit sample_env) incomplete_page) = timers incomplete_page
  ∧ controls (exec (onSubmit sample_env) incomplete_page) = controls incomplete_page
  ∧ s_className (status (exec (onSubmit sample_env) incomplete_page)) = "error"
  ∧ (has_checked_box incomplete_page "styles_soft_relaxing" = false
     ∨ has_checked_box incomplete_page "styles_intense_emotional" = false →
     eval validateCheckboxGroups incomplete_page = Normal false).
Proof.
  apply (invalid_submission_sends_nothing sample_env incomplete_page).
  right. left. reflexivity.
Defined.

(** ** A failed request *)

Lemma getOrCreateUUID_storage env p :
  localStorage (exec (getOrCreateUUID env) p)
  = if JsString.truthy (localStorage p !! uuid_key) then localStorage p
    else <[uuid_key := uuid_of_draws env uuid_template (randomCalls p)]> (localStorage p).
Proof.
  destruct (JsString.truthy (localStorage p !! uuid_key)) eqn:Ht.
  - destruct (localStorage p !! uuid_key) as [u|] eqn:Hu; [|done].
    assert (Hne : u ≠ "") by (intros ->; discriminate Ht).
    unfold exec. by rewrite (getOrCreateUUID_stored env p u Hu Hne).
  - by destruct (getOrCreateUUID_generated env p Ht) as (_ & -> & _).
Qed.

(** An environment in which the network is down. *)
Definition offline_env : Env :=
  mkEnv sample_draws 1793611200123 (fun _ => FetchRejected "Failed to fetch")
    (fun _ => 0%float) (fun _ => "0").

(** On the sample page, whose storage is empty, a rejected request leaves
    the storage changed: the identifier generated for the request stays. *)
Lemma failed_submission_changes_storage :
  eval validateCheckboxGroups sample_page = Normal true
  ∧ eval checkValidity sample_page = Normal true
  ∧ fetch_failed (fetch_outcome offline_env (submit_request offline_env sample_page))
  ∧ length (requests (exec (onSubmit offline_env) sample_page)) = 1%nat
  ∧ localStorage (exec (onSubmit offline_env) sample_page) ≠ localStorage sample_page.
Proof.
  split; [reflexivity|]. split; [reflexivity|]. split; [exact I|].
  split; [reflexivity|].
  intros H. apply (f_equal (fun m => m !! "music_survey_user_uuid")) in H.
  vm_compute in H. discriminate H.
Qed.

(** C6, as the listener behaves.  When the form is valid, the submit
    button is found and the request is rejected or answered with a type
    other than ['opaque'], the listener returns normally; the storage is the
    one [getOrCreateUUID] left, so every key other than
    ["music_survey_user_uuid"] holds what it held, the completed flag is not
    set, and a stored non-empty identifier means the storage is unchanged as
    a whole; the submit button is enabled again with its label restored, the
    status shows an error, and no timer is set. *)
Theorem failed_submission_keeps_flag (env : Env) (p : Page) (i : nat) :
  eval validateCheckboxGroups p = Normal true →
  eval checkValidity p = Normal true →
  eval (querySelector sel_submit) p = Normal (Some i) →
  fetch_failed (fetch_outcome env (submit_request env p)) →
  eval (onSubmit env) p = Normal tt
  ∧ localStorage (exec (onSubmit env) p) = localStorage (exec (getOrCreateUUID env) p)
  ∧ (∀ k, k ≠ "music_survey_user_uuid" →
          localStorage (exec (onSubmit env) p) !! k = localStorage p !! k)
  ∧ localStorage (exec (onSubmit env) p) !! "music_survey_completed"
    = localStorage p !! "music_survey_completed"
  ∧ (∀ u, localStorage p !! "music_survey_user_uuid" = Some u → u ≠ "" →
          localStorage (exec (onSubmit env) p) = localStorage p)
  ∧ (∃ c, controls (exec (onSubmit env) p) !! i = Some c
          ∧ c_disabled c = false ∧ c_textContent c = "提交問卷")
  ∧ s_className (status (exec (onSubmit env) p)) = "error"
  ∧ timers (exec (onSubmit env) p) = timers p.
Proof.
  intros Hg Hv Hbtn%querySelector_found Hf.
  pose proof (onSubmit_failed env p i (conj Hg Hv) Hbtn Hf) as Hrun.
  unfold eval at 1, exec at 1 3 4 5 6 7 8. rewrite Hrun. cbn [fst snd].
  destruct (page_failed_effects (page_sending env p i) i) as (_ & Hls & _ & Ht & Hc & Hst).
  rewrite Hls, Ht, Hst, Hc, page_sending_timers, page_sending_controls.
  rewrite (proj1 (page_sending_storage env p i)).
  assert (Hother : ∀ k, k ≠ "music_survey_user_uuid" →
            localStorage (exec (getOrCreateUUID env) p) !! k = localStorage p !! k).
  { intros k Hk. rewrite getOrCreateUUID_storage.
    destruct (JsString.truthy _); [done|]. by rewrite lookup_insert_ne. }
  split; [done|]. split; [done|]. split; [exact Hother|].
  split; [by apply Hother|]. split.
  { intros u Hu Hne. rewrite getOrCreateUUID_storage.
    fold uuid_key in Hu. by rewrite Hu, (truthy_Some _ Hne). }
  split; [|done].
  assert (Hi : is_Some (controls p !! i)).
  { apply lookup_lt_is_Some.
    clear -Hbtn. revert Hbtn. generalize (controls p). intros cs Hh.
    assert (Hgen : ∀ cs j i, head (matching_from sel_submit j cs) = Some i →
              (i < j + length cs)%nat).
    { clear. induction cs as [|c cs IH]; intros j i H; [done|].
      cbn [matching_from] in H. destruct (matches sel_submit c).
      - cbn in H. injection H as <-. cbn. lia.
      - apply IH in H. cbn. lia. }
    apply (Hgen cs 0%nat i Hh). }
  destruct Hi as [c0 Hc0].
  exists (set_textContent "提交問卷"
            (set_disabled false (set_textContent "處理中..." (set_disabled true c0)))).
  split; [|done].
  rewrite !list_lookup_alter_eq, Hc0. reflexivity.
Qed.

Lemma failed_submission_keeps_flag_witness :
  eval (onSubmit offline_env) sample_page = Normal tt
  ∧ localStorage (exec (onSubmit offline_env) sample_page)
    = localStorage (exec (getOrCreateUUID offline_env) sample_page)
  ∧ (∀ k, k ≠ "music_survey_user_uuid" →
          localStorage (exec (onSubmit offline_env) sample_page) !! k
          = localStorage sample_page !! k)
  ∧ localStorage (exec (onSubmit offline_env) sample_page) !! "music_survey_completed"
    = localStorage sample_page !! "music_survey_completed"
  ∧ (∀ u, localStorage sample_page !! "music_survey_user_uuid" = Some u → u ≠ "" →
          localStorage (exec (onSubmit offline_env) sample_page)
          = localStorage sample_page)
  ∧ (∃ c, controls (exec (onSubmit offline_env) sample_page) !! 6%nat = Some c
          ∧ c_disabled c = false ∧ c_textContent c = "提交問卷")
  ∧ s_className (status (exec (onSubmit offline_env) sample_page)) = "error"
  ∧ timers (exec (onSubmit offline_env) sample_page) = timers sample_page.
Proof.
  apply (failed_submission_keeps_flag offline_env sample_page 6);
    [reflexivity|reflexivity|reflexivity|exact I].
Defined.

(** ** The file name of a source *)

Fixpoint has_char (c : ascii) (s : string) : bool :=
  match s with
  | EmptyString => false
  | String a s' => Ascii.eqb a c || has_char c s'
  end.

Lemma lastIndexOf_from_app c s1 : ∀ s2 i found,
  JsString.lastIndexOf_from c (s1 +:+ s2) i found
  = JsString.lastIndexOf_from c s2 (i + Z.of_nat (String.length s1))
      (JsString.lastIndexOf_from c s1 i found).
Proof.
  induction s1 as [|a s1 IH]; intros s2 i found.
  - cbn. by rewrite Z.add_0_r.
  - change (String a s1 +:+ s2) with (String a (s1 +:+ s2)).
    cbn [JsString.lastIndexOf_from String.length].
    rewrite IH. f_equal. lia.
Qed.

Lemma lastIndexOf_from_absent c s : ∀ i found,
  has_char c s = false → JsString.lastIndexOf_from c s i found = found.
Proof.
  induction s as [|a s IH]; intros i found H; [done|].
  cbn in *. apply orb_false_iff in H as [-> H]. by apply IH.
Qed.

Lemma lastIndexOf_from_low c s : ∀ i found,
  JsString.lastIndexOf_from c s i found = found
  ∨ i <= JsString.lastIndexOf_from c s i found.
Proof.
  induction s as [|a s IH]; intros i found; [by left|].
  cbn [JsString.lastIndexOf_from].
  destruct (IH (i + 1) (if Ascii.eqb a c then i else found)) as [->|H].
  - destruct (Ascii.eqb a c); [right; lia|by left].
  - right. lia.
Qed.

Lemma lastIndexOf_from_present c s : ∀ i found,
  has_char c s = true → i <= JsString.lastIndexOf_from c s i found.
Proof.
  induction s as [|a s IH]; intros i found H; [done|].
  cbn [JsString.lastIndexOf_from has_char] in *.
  destruct (Ascii.eqb a c).
  - destruct (lastIndexOf_from_low c s (i + 1) i) as [->|?]; lia.
  - cbn in H. specialize (IH (i + 1) found H). lia.
Qed.

Lemma lastIndexOf_none c s : JsString.lastIndexOf s c = -1 → has_char c s = false.
Proof.
  unfold JsString.lastIndexOf. intros H.
  destruct (has_char c s) eqn:E; [|done].
  pose proof (lastIndexOf_from_present c s 0 (-1) E). lia.
Qed.

Lemma drop_length_app (a b : string) : JsString.drop (String.length a) (a +:+ b) = b.
Proof. induction a as [|c a IH]; [by destruct b|exact IH]. Qed.

(** [name] is the file name of the source [src]: it holds no slash, and
    [src] is [name] itself or ends with a slash followed by [name]. *)
Definition is_file_name (src name : string) : Prop :=
  has_char "/" name = false
  ∧ (src = name ∨ ∃ dir, src = dir +:+ ("/" +:+ name)).








(** ** Audio progress *)


(** One turn of the loop of [initAudioPersistence], on the element at the
    end of the prefix [pre]. *)
Lemma initAudio_run env p pre a rest :
  audios p = pre ++ a :: rest →
  (∀ src v, audio_src a = Some src → src ≠ "" →
     localStorage p !! audio_key src = Some v → v ≠ "" →
     is_finite (parseFloat env v) = true) →
  eval (initAudio env (length pre)) p = Normal tt
  ∧ audios (exec (initAudio env (length pre)) p)
    = pre ++ audio_initialised env (localStorage p) a :: rest
  ∧ localStorage (exec (initAudio env (length pre)) p) = localStorage p.
Proof.
  intros Hp Hok.
  assert (Hi : audios p !! length pre = Some a).
  { rewrite Hp, lookup_app_r by lia. by rewrite Nat.sub_diag. }
  unfold eval, exec, initAudio. rewrite run_bind. cbn [gets]. rewrite Hi.
  unfold audio_initialised.
  destruct (audio_src a) as [src|] eqn:Hsrc; cbn [JsString.truthy negb].
  2: { cbn. by rewrite Hp. }
  destruct (String.eqb src "") eqn:Esrc; cbn [negb default from_option id].
  { cbn. by rewrite Hp. }
  apply String.eqb_neq in Esrc.
  rewrite run_bind. cbn [getItem].
  assert (Halter : ∀ f x (l : list Audio), l = pre ++ x :: rest →
            alter f (length pre) l = pre ++ f x :: rest).
  { intros f x l ->. replace (length pre) with (length pre + 0)%nat by lia.
    by rewrite alter_app_r. }
  destruct (JsString.truthy (localStorage p !! audio_key src)) eqn:Ht.
  - destruct (localStorage p !! audio_key src) as [v|] eqn:Hv; [|done].
    assert (Hne : v ≠ "") by (intros ->; discriminate Ht).
    rewrite run_bind. unfold assign_currentTime. cbn [default from_option id].
    rewrite (Hok src v eq_refl Esrc Hv Hne).
    cbn [modify]. rewrite run_bind. cbn [addEventListener modify].
    cbn [fst snd audios with_audios log_op with_storage localStorage].
    rewrite (Halter _ _ _ Hp). cbn [audios with_audios].
    rewrite (Halter _ _ _ eq_refl).
    cbn [addEventListener modify fst snd audios with_audios localStorage].
    rewrite (Halter _ _ _ eq_refl). done.
  - rewrite run_bind, run_ret. rewrite run_bind. cbn [addEventListener modify].
    cbn [fst snd audios with_audios log_op with_storage localStorage].
    rewrite (Halter _ _ _ Hp).
    cbn [addEventListener modify fst snd audios with_audios localStorage].
    rewrite (Halter _ _ _ eq_refl). done.
Qed.


Lemma forEach_app_run {A} (l1 l2 : list A) (f : A -> M unit) p :
  forEach (l1 ++ l2) f p
  = match forEach l1 f p with
    | (Normal _, p') => forEach l2 f p'
    | (Throw e, p') => (Throw e, p')
    end.
Proof.
  revert p. induction l1 as [|x l1 IH]; intros p; [done|].
  cbn [app forEach]. rewrite !run_bind.
  destruct (f x p) as [[[]|e] p']; [apply IH|done].
Qed.

Lemma initAudio_loop_mid env : ∀ mid pre post p,
  audios p = pre ++ mid ++ post →
  (∀ a src v, a ∈ mid → audio_src a = Some src → src ≠ "" →
     localStorage p !! audio_key src = Some v → v ≠ "" →
     is_finite (parseFloat env v) = true) →
  eval (forEach (seq (length pre) (length mid)) (initAudio env)) p = Normal tt
  ∧ audios (exec (forEach (seq (length pre) (length mid)) (initAudio env)) p)
    = pre ++ map (audio_initialised env (localStorage p)) mid ++ post
  ∧ localStorage (exec (forEach (seq (length pre) (length mid)) (initAudio env)) p)
    = localStorage p.
Proof.
  induction mid as [|a mid IH]; intros pre post p Hp Hok.
  - cbn. by rewrite Hp.
  - cbn [length seq forEach map app].
    destruct (initAudio_run env p pre a (mid ++ post) Hp) as (He & Ha & Hl).
    { intros src v. apply Hok. by left. }
    rewrite (eval_bind_normal _ _ _ _ He), (exec_bind_normal _ _ _ _ He).
    replace (S (length pre)) with (length (pre ++ [audio_initialised env (localStorage p) a]))
      by (rewrite length_app; cbn; lia).
    destruct (IH (pre ++ [audio_initialised env (localStorage p) a]) post
                (exec (initAudio env (length pre)) p)) as (He' & Ha' & Hl').
    { by rewrite Ha, <- app_assoc. }
    { intros b src v Hb. rewrite Hl. apply Hok. by right. }
    rewrite He', Ha', Hl', Hl. by rewrite <- app_assoc.
Qed.

Lemma initAudio_preserves {B} env i (g : Page -> B) :
  (∀ ls tr p, g (with_storage ls tr p) = g p) →
  (∀ l p, g (with_audios l p) = g p) →
  preserves g (initAudio env i).
Proof.
  intros Hs Ha. unfold initAudio.
  apply preserves_bind; [apply preserves_gets|]. intros [a|]; [|apply preserves_ret].
  destruct (negb _); [apply preserves_ret|].
  apply preserves_bind; [intros p; apply Hs|]. intros saved.
  apply preserves_bind.
  { destruct (JsString.truthy saved); [|apply preserves_ret].
    unfold assign_currentTime. destruct (is_finite _); [|apply preserves_throw].
    by apply preserves_modify. }
  intros _. apply preserves_bind; [by apply preserves_modify|].
  intros _. by apply preserves_modify.
Qed.











Definition player_env : Env :=
  mkEnv sample_draws 1793611200123 (fun _ => FetchResolved "opaque")
    (fun s => if String.eqb s "12.5" then 12.5%float else PrimFloat.nan)
    (fun t => if PrimFloat.eqb t 12.5 then "12.5" else "0").

(** The sample page in a browser that heard part of the track before. *)
Definition resumed_page : Page :=
  with_storage {[ "music_survey_audio_track1.mp3" := "12.5" ]} [] sample_page.



(** On the sample page the file name is [track1.mp3], whatever the
    directory part of the address is. *)
Example sample_file_name :
  is_file_name "https://example.org/audio/track1.mp3" "track1.mp3"
  ∧ ¬ is_file_name "https://example.org/audio/track1.mp3" "audio/track1.mp3".
Proof.
  split.
  - split; [reflexivity|]. right. by exists "https://example.org/audio".
  - intros [H _]. discriminate H.
Qed.

(** The life of the track on the sample page: restored at 12.5 s on load,
    saved while playing, forgotten when it ends. *)
Example resumed_track :
  a_currentTime <$> audios (exec (handle player_env PageLoaded) resumed_page) !! 0%nat
  = Some 12.5%float
  ∧ localStorage (exec (handle player_env (AudioFired 0 EvEnded))
                    (exec (handle player_env PageLoaded) resumed_page)) = ∅.
Proof. split; vm_compute; reflexivity. Qed.

(** ** Every key carries the prefix *)

Definition key_ok (k : string) : Prop :=
  JsString.startsWith k "music_survey_" = true.

Definition audio_ok (a : Audio) : Prop :=
  Forall (fun el => key_ok (listener_key el.2)) (a_listeners a).

(** What the script maintains: the calls made so far and the keys its
    listeners hold all carry the prefix. *)
Definition script_invariant (p : Page) : Prop :=
  Forall op_prefixed (storageTrace p) ∧ Forall audio_ok (audios p).

Definition keeps_invariant {A} (m : M A) : Prop :=
  ∀ p, script_invariant p → script_invariant (exec m p).

Lemma prefix_app (a s : string) : String.prefix a (a +:+ s) = true.
Proof.
  induction a as [|c a IH]; simpl; [by destruct s|].
  destruct (ascii_dec c c); [exact IH|done].
Qed.

Lemma prefix_trans (a b s : string) :
  String.prefix a b = true → String.prefix b s = true → String.prefix a s = true.
Proof.
  revert b s. induction a as [|c a IH]; intros b s Hab Hbs; [by destruct s|].
  destruct b as [|d b]; [done|]. destruct s as [|e s]; [done|].
  simpl in *. destruct (ascii_dec c d) as [->|]; [|done].
  destruct (ascii_dec d e); [|done]. by apply (IH b s).
Qed.

Lemma audio_key_ok src : key_ok (audio_key src).
Proof.
  unfold key_ok, audio_key, JsString.startsWith.
  change "music_survey_" with STORAGE_PREFIX. apply prefix_app.
Qed.

Lemma audio_prefixed_ok k :
  JsString.startsWith k (STORAGE_PREFIX +:+ "audio_") = true → key_ok k.
Proof. intros H. by apply (prefix_trans "music_survey_" "music_survey_audio_" k). Qed.

Lemma keeps_ret {A} (a : A) : keeps_invariant (mret a : M A).
Proof. by intros p Hp. Qed.

Lemma keeps_throw {A} e : keeps_invariant (throw e : M A).
Proof. by intros p Hp. Qed.

Lemma keeps_gets {A} (g : Page -> A) : keeps_invariant (gets g).
Proof. by intros p Hp. Qed.

Lemma keeps_bind {A B} (m : M A) (k : A -> M B) :
  keeps_invariant m → (∀ a, keeps_invariant (k a)) → keeps_invariant (m ≫= k).
Proof.
  intros Hm Hk p Hp. specialize (Hm p Hp). unfold exec in *. rewrite run_bind.
  destruct (m p) as [[a|e] p']; [by apply Hk|done].
Qed.

Lemma keeps_try_catch {A} (m : M A) (h : Exn -> M A) :
  keeps_invariant m → (∀ e, keeps_invariant (h e)) → keeps_invariant (try_catch m h).
Proof.
  intros Hm Hh p Hp. specialize (Hm p Hp). unfold exec, try_catch in *.
  destruct (m p) as [[a|e] p']; [done|by apply Hh].
Qed.

Lemma keeps_forEach {A} (l : list A) (f : A -> M unit) :
  (∀ x, x ∈ l → keeps_invariant (f x)) → keeps_invariant (forEach l f).
Proof.
  induction l as [|x l IH]; intros Hf; [apply keeps_ret|].
  cbn [forEach]. apply keeps_bind; [apply Hf; by left|].
  intros _. apply IH. intros y Hy. apply Hf. by right.
Qed.

(** A computation that touches neither the record of calls nor the audio
    elements. *)
Lemma keeps_frame {A} (m : M A) :
  preserves storageTrace m → preserves audios m → keeps_invariant m.
Proof. intros Ht Ha p [H1 H2]. split; [by rewrite Ht|by rewrite Ha]. Qed.

Lemma keeps_modify g :
  (∀ p, storageTrace (g p) = storageTrace p) → (∀ p, audios (g p) = audios p) →
  keeps_invariant (modify g).
Proof. intros Ht Ha. apply keeps_frame; by apply preserves_modify. Qed.

Lemma keeps_log op ls p :
  op_prefixed op → script_invariant p → script_invariant (log_op op ls p).
Proof.
  intros Hop [H1 H2]. split; [|done]. cbn. apply Forall_app. split; [done|].
  by apply Forall_singleton.
Qed.

Lemma keeps_getItem k : key_ok k → keeps_invariant (getItem k).
Proof. intros Hk p Hp. apply keeps_log; [|done]. by intros k' [= <-]. Qed.

Lemma keeps_setItem k v : key_ok k → keeps_invariant (setItem k v).
Proof. intros Hk p Hp. apply keeps_log; [|done]. by intros k' [= <-]. Qed.

Lemma keeps_removeItem k : key_ok k → keeps_invariant (removeItem k).
Proof. intros Hk p Hp. apply keeps_log; [|done]. by intros k' [= <-]. Qed.

Lemma keeps_Object_keys : keeps_invariant Object_keys_localStorage.
Proof. intros p Hp. apply keeps_log; [|done]. by intros k' [=]. Qed.

Lemma keeps_lockForm : keeps_invariant lockForm.
Proof. apply keeps_frame; by apply lockForm_preserves. Qed.

Lemma keeps_showStatus msg ty : keeps_invariant (showStatus msg ty).
Proof. by apply keeps_modify. Qed.

Lemma keeps_checkIfSubmitted : keeps_invariant checkIfSubmitted.
Proof.
  unfold checkIfSubmitted. apply keeps_bind; [by apply keeps_getItem|].
  intros v. case_bool_decide; [|apply keeps_ret].
  apply keeps_bind; [apply keeps_lockForm|]. intros _. apply keeps_showStatus.
Qed.

Lemma keeps_clearSurveyStorage : keeps_invariant clearSurveyStorage.
Proof.
  unfold clearSurveyStorage. apply keeps_bind; [apply keeps_Object_keys|].
  intros keys. apply keeps_forEach. intros k _.
  destruct (JsString.startsWith k _) eqn:E; [|apply keeps_ret].
  by apply keeps_removeItem, audio_prefixed_ok.
Qed.

Lemma keeps_replace_xy env s : keeps_invariant (replace_xy s (uuid_digit env)).
Proof. intros p Hp. unfold exec. by rewrite replace_xy_run. Qed.

Lemma keeps_getOrCreateUUID env : keeps_invariant (getOrCreateUUID env).
Proof.
  unfold getOrCreateUUID. apply keeps_bind; [by apply keeps_getItem|].
  intros v. destruct (JsString.truthy v); [apply keeps_ret|].
  apply keeps_bind; [apply keeps_replace_xy|]. intros u.
  apply keeps_bind; [by apply keeps_setItem|]. intros _. apply keeps_ret.
Qed.

Lemma keeps_validateGroups groups : keeps_invariant (validateGroups groups).
Proof. apply keeps_frame; by apply validateGroups_preserves. Qed.

Lemma keeps_update_control_opt f el : keeps_invariant (update_control_opt f el).
Proof. destruct el; [by apply keeps_modify|apply keeps_throw]. Qed.

Lemma keeps_await_fetch env req : keeps_invariant (await_fetch env req).
Proof.
  apply keeps_frame; intros p; unfold exec, await_fetch;
    by destruct (fetch_outcome env req).
Qed.

Lemma keeps_onSubmit env : keeps_invariant (onSubmit env).
Proof.
  unfold onSubmit. apply keeps_bind; [apply keeps_validateGroups|].
  intros ok. destruct (negb ok); [apply keeps_ret|].
  apply keeps_bind; [apply keeps_gets|]. intros valid. destruct (negb valid).
  { apply keeps_bind; [apply keeps_showStatus|]. intros _. by apply keeps_modify. }
  apply keeps_try_catch.
  - unfold submit_try. apply keeps_bind; [apply keeps_gets|]. intros formData.
    apply keeps_bind; [apply keeps_getOrCreateUUID|]. intros u.
    apply keeps_bind; [apply keeps_showStatus|]. intros _.
    apply keeps_bind; [apply keeps_gets|]. intros btn.
    apply keeps_bind; [apply keeps_update_control_opt|]. intros _.
    apply keeps_bind; [apply keeps_update_control_opt|]. intros _.
    apply keeps_bind; [apply keeps_await_fetch|]. intros ty.
    destruct (String.eqb ty "opaque"); [|apply keeps_throw].
    apply keeps_bind; [apply keeps_showStatus|]. intros _.
    apply keeps_bind; [by apply keeps_modify|]. intros _.
    apply keeps_bind; [apply keeps_clearSurveyStorage|]. intros _.
    apply keeps_bind; [by apply keeps_setItem|]. intros _.
    by apply keeps_modify.
  - intros e. unfold submit_catch.
    apply keeps_bind; [by apply keeps_modify|]. intros _.
    apply keeps_bind; [apply keeps_gets|]. intros btn.
    apply keeps_bind; [apply keeps_update_control_opt|]. intros _.
    apply keeps_bind; [apply keeps_update_control_opt|]. intros _.
    apply keeps_showStatus.
Qed.

Lemma keeps_alter_audio (f : Audio -> Audio) i :
  (∀ a, audio_ok a → audio_ok (f a)) →
  keeps_invariant (modify (fun p => with_audios (alter f i (audios p)) p)).
Proof.
  intros Hf p [H1 H2]. split; [done|].
  change (Forall audio_ok (alter f i (audios p))).
  apply Forall_alter; [done|]. intros a _. apply Hf.
Qed.

Lemma add_listener_ok ev l a :
  key_ok (listener_key l) → audio_ok a → audio_ok (add_listener ev l a).
Proof.
  intros Hl Ha. unfold audio_ok. cbn. apply Forall_app. split; [done|].
  by apply Forall_singleton.
Qed.

Lemma keeps_initAudio env i : keeps_invariant (initAudio env i).
Proof.
  unfold initAudio. apply keeps_bind; [apply keeps_gets|]. intros [a|]; [|apply keeps_ret].
  destruct (negb _); [apply keeps_ret|].
  apply keeps_bind; [apply keeps_getItem, audio_key_ok|]. intros saved.
  apply keeps_bind.
  { destruct (JsString.truthy saved); [|apply keeps_ret].
    unfold assign_currentTime. destruct (is_finite _); [|apply keeps_throw].
    by apply keeps_alter_audio. }
  intros _. apply keeps_bind.
  { apply keeps_alter_audio. intros b. apply add_listener_ok, audio_key_ok. }
  intros _. apply keeps_alter_audio. intros b. apply add_listener_ok, audio_key_ok.
Qed.

Lemma keeps_run_listener env i l : key_ok (listener_key l) → keeps_invariant (run_listener env i l).
Proof.
  intros Hl. destruct l as [k|k]; [|by apply keeps_removeItem].
  unfold run_listener. apply keeps_bind; [apply keeps_gets|].
  intros [a|]; [|apply keeps_ret].
  destruct (negb _); [by apply keeps_setItem|apply keeps_ret].
Qed.

Lemma keeps_dispatchAudioEvent env i ev : keeps_invariant (dispatchAudioEvent env i ev).
Proof.
  intros p Hp. unfold exec, dispatchAudioEvent. rewrite run_bind. cbn [gets].
  apply (keeps_forEach _ (run_listener env i)); [|done].
  intros l Hl. apply keeps_run_listener.
  destruct (audios p !! i) as [a|] eqn:Ha; [|by apply elem_of_nil in Hl].
  cbn in Hl. unfold listeners_for in Hl.
  apply list_elem_of_fmap in Hl as ([ev' l'] & -> & Hin).
  apply list_elem_of_filter in Hin as [_ Hin].
  destruct Hp as [_ Hp]. rewrite Forall_forall in Hp.
  assert (Hok : audio_ok a) by (apply Hp; by eapply list_elem_of_lookup_2).
  unfold audio_ok in Hok. rewrite Forall_forall in Hok. by apply (Hok (ev', l')).
Qed.

Lemma keeps_repeatM n (m : M unit) : keeps_invariant m → keeps_invariant (repeatM n m).
Proof.
  intros Hm. induction n as [|n IH]; [apply keeps_ret|].
  cbn [repeatM]. apply keeps_bind; auto.
Qed.

Lemma keeps_handle env e : keeps_invariant (handle env e).
Proof.
  destruct e as [| |i ev|]; cbn [handle].
  - unfold onDOMContentLoaded.
    apply keeps_bind; [apply keeps_checkIfSubmitted|]. intros _.
    apply keeps_bind; [|intros _; by apply keeps_modify].
    unfold initAudioPersistence. apply keeps_bind; [apply keeps_gets|].
    intros l. apply keeps_forEach. intros j _. apply keeps_initAudio.
  - unfold dispatchSubmit. apply keeps_bind; [apply keeps_gets|]. intros n.
    apply keeps_repeatM, keeps_try_catch; [apply keeps_onSubmit|].
    intros _. apply keeps_ret.
  - apply keeps_dispatchAudioEvent.
  - unfold fireTimer. apply keeps_bind; [apply keeps_gets|]. intros [|t rest].
    + apply keeps_ret.
    + apply keeps_bind; [by apply keeps_modify|]. intros _.
      destruct t as [d []]. apply keeps_lockForm.
Qed.

Lemma reachable_invariant p : reachable p → script_invariant p.
Proof.
  induction 1 as [p (Ht & Hl & _)|env e p _ IH|p p' _ IH (Ht & Hl & _)].
  - split; [by rewrite Ht|].
    eapply Forall_impl; [exact Hl|]. intros a Ha. unfold audio_ok. by rewrite Ha.
  - by apply keeps_handle.
  - destruct IH as [H1 H2]. split; [by rewrite Ht|].
    assert (Hmap : ∀ l, Forall audio_ok l
              ↔ Forall (Forall (fun el : AudioEvent * AudioListener =>
                                  key_ok (listener_key el.2))) (map a_listeners l)).
    { intros l. symmetry. apply (Forall_fmap a_listeners). }
    apply Hmap. rewrite Hl. by apply Hmap.
Qed.

(** C8.  On every page the script can reach, through any sequence of page
    loads, submissions, audio events, timers and changes made from outside,
    every call the script has made on [localStorage] with a key
    ([getItem], [setItem], [removeItem]) used a key that begins with
    ["music_survey_"]; the identifier key, the completed flag and every
    audio-progress key are such keys. *)
Theorem storage_keys_prefixed (p : Page) :
  reachable p →
  (∀ op k, op ∈ storageTrace p → op_key op = Some k →
           JsString.startsWith k "music_survey_" = true)
  ∧ JsString.startsWith uuid_key "music_survey_" = true
  ∧ JsString.startsWith completed_key "music_survey_" = true
  ∧ (∀ src, JsString.startsWith (audio_key src) "music_survey_" = true).
Proof.
  intros Hr. split; [|split; [done|split; [done|apply audio_key_ok]]].
  destruct (reachable_invariant p Hr) as [Ht _].
  rewrite Forall_forall in Ht. intros op k Hop. by apply Ht.
Qed.

(** A visit: the page loads, the track plays and ends, the form is sent. *)
Definition visited_page : Page :=
  exec (handle sample_env FormSubmitted)
    (exec (handle sample_env (AudioFired 0 EvEnded))
       (exec (handle sample_env (AudioFired 0 EvTimeUpdate))
          (exec (handle sample_env PageLoaded) sample_page))).

Lemma sample_page_fresh : fresh_page sample_page.
Proof. repeat split; try reflexivity. by repeat constructor. Qed.

Lemma storage_keys_prefixed_witness :
  (∀ op k, op ∈ storageTrace visited_page → op_key op = Some k →
           JsString.startsWith k "music_survey_" = true)
  ∧ JsString.startsWith uuid_key "music_survey_" = true
  ∧ JsString.startsWith completed_key "music_survey_" = true
  ∧ (∀ src, JsString.startsWith (audio_key src) "music_survey_" = true).
Proof.
  apply (storage_keys_prefixed visited_page).
  do 4 apply reach_event. apply reach_fresh. exact sample_page_fresh.
Defined.

(** The calls made during that visit. *)
Example visited_trace :
  storageTrace visited_page
  = [OpGetItem "music_survey_completed";
     OpGetItem "music_survey_audio_track1.mp3";
     OpSetItem "music_survey_audio_track1.mp3" "0";
     OpRemoveItem "music_survey_audio_track1.mp3";
     OpGetItem "music_survey_user_uuid";
     OpSetItem "music_survey_user_uuid" "07e5c3a1-8f6d-44b2-907e-5c3a18f6d4b2";
     OpKeys;
     OpSetItem "music_survey_completed" "true"].
Proof. vm_compute. reflexivity. Qed.

(** * Further properties of the script *)

(** ** [validateCheckboxGroups] *)

Lemma validateGroups_fail name message rest p :
  has_checked_box p name = false →
  status (exec (validateGroups ((name, message) :: rest)) p)
  = mkStatus message "error" (s_opacity (status p)) (s_fontWeight (status p)).
Proof.
  intros Hn. cbn [validateGroups]. unfold exec.
  rewrite run_bind. cbn [querySelectorAll gets]. rewrite run_bind. cbn [gets].
  rewrite isChecked_spec, Hn. cbn [negb].
  rewrite run_bind. cbn [showStatus modify]. rewrite run_bind.
  cbn [querySelector gets]. rewrite run_bind. cbn [gets]. rewrite run_bind.
  match goal with
  | |- context [match ?o with Some b => scrollIntoView b | None => mret () end] =>
      destruct o
  end; reflexivity.
Qed.

Lemma validateGroups_pass name message rest p :
  has_checked_box p name = true →
  validateGroups ((name, message) :: rest) p = validateGroups rest p.
Proof.
  intros Hn. cbn [validateGroups].
  rewrite run_bind. cbn [querySelectorAll gets]. rewrite run_bind. cbn [gets].
  by rewrite isChecked_spec, Hn.
Qed.

(** X1.  [validateCheckboxGroups] answers [true] exactly when each of the two
    groups has a checked checkbox, and then changes nothing at all;
    otherwise it shows, as an error, the message of the first group that
    has none, the relaxing styles being asked for first.  In no case does
    it touch the controls, the storage or the network. *)
Theorem validateCheckboxGroups_verdict (p : Page) :
  eval validateCheckboxGroups p
  = Normal (has_checked_box p "styles_soft_relaxing"
            && has_checked_box p "styles_intense_emotional")
  ∧ (has_checked_box p "styles_soft_relaxing"
     && has_checked_box p "styles_intense_emotional" = true →
     exec validateCheckboxGroups p = p)
  ∧ (has_checked_box p "styles_soft_relaxing" = false →
     status (exec validateCheckboxGroups p)
     = mkStatus "請至少選擇一項您感到放鬆的音樂風格。" "error"
         (s_opacity (status p)) (s_fontWeight (status p)))
  ∧ (has_checked_box p "styles_soft_relaxing" = true →
     has_checked_box p "styles_intense_emotional" = false →
     status (exec validateCheckboxGroups p)
     = mkStatus "請至少選擇一項您感到不舒服的音樂風格。" "error"
         (s_opacity (status p)) (s_fontWeight (status p)))
  ∧ controls (exec validateCheckboxGroups p) = controls p
  ∧ localStorage (exec validateCheckboxGroups p) = localStorage p
  ∧ storageTrace (exec validateCheckboxGroups p) = storageTrace p
  ∧ requests (exec validateCheckboxGroups p) = requests p.
Proof.
  split; [apply validateCheckboxGroups_spec|].
  split.
  { intros H. apply validateGroups_run. cbn [requiredGroups forallb fst].
    by rewrite andb_true_r. }
  split; [apply validateGroups_fail|].
  split.
  { intros H1 H2. unfold validateCheckboxGroups, requiredGroups, exec.
    rewrite (validateGroups_pass _ _ _ p H1).
    by apply (validateGroups_fail "styles_intense_emotional"). }
  unfold validateCheckboxGroups.
  by rewrite !(validateGroups_preserves _ requiredGroups).
Qed.

(** ** A form without [button[type="submit"]] *)

(** The sample form with an [input type="submit"] in place of the button:
    the form can be submitted, but the selector of the script finds
    nothing. *)
Definition input_submit_page : Page :=
  with_controls
    (alter (fun _ => mkControl TInput "submit" "" "送出" false "" false false false "" None)
       6%nat sample_controls)
    sample_page.

(** X2.  When the form is valid but holds no [button[type="submit"]], the
    listener ends with an uncaught [TypeError], raised a second time inside
    the [catch] block: no request is sent, the status is left at
    "submitting" rather than at an error, and the identifier has been
    fetched or created all the same. *)
Theorem missing_submit_button_throws (env : Env) (p : Page) :
  eval validateCheckboxGroups p = Normal true →
  eval checkValidity p = Normal true →
  eval (querySelector sel_submit) p = Normal None →
  eval (onSubmit env) p = Throw (TypeError "Cannot set properties of null")
  ∧ requests (exec (onSubmit env) p) = requests p
  ∧ s_textContent (status (exec (onSubmit env) p)) = "提交中..."
  ∧ s_className (status (exec (onSubmit env) p)) = "info"
  ∧ localStorage (exec (onSubmit env) p) = localStorage (exec (getOrCreateUUID env) p)
  ∧ controls (exec (onSubmit env) p) = controls p.
Proof.
  intros Hg Hv Hq.
  assert (Hbtn : head (matching_from sel_submit 0 (controls p)) = None).
  { unfold eval in Hq. cbn in Hq. congruence. }
  assert (Hc : controls (exec (getOrCreateUUID env) p) = controls p)
    by (by apply getOrCreateUUID_preserves).
  unfold eval, exec. rewrite (onSubmit_valid env p (conj Hg Hv)). unfold try_catch.
  rewrite (submit_try_no_button env p Hbtn).
  rewrite submit_catch_no_button.
  - cbn [fst snd]. repeat split; try done.
    change (requests (exec (getOrCreateUUID env) p) = requests p).
    by apply getOrCreateUUID_preserves.
  - change (head (matching_from sel_submit 0 (controls (exec (getOrCreateUUID env) p))) = None).
    by rewrite Hc.
Qed.

Lemma missing_submit_button_throws_witness :
  eval (onSubmit sample_env) input_submit_page
  = Throw (TypeError "Cannot set properties of null")
  ∧ requests (exec (onSubmit sample_env) input_submit_page) = requests input_submit_page
  ∧ s_textContent (status (exec (onSubmit sample_env) input_submit_page)) = "提交中..."
  ∧ s_className (status (exec (onSubmit sample_env) input_submit_page)) = "info"
  ∧ localStorage (exec (onSubmit sample_env) input_submit_page)
    = localStorage (exec (getOrCreateUUID sample_env) input_submit_page)
  ∧ controls (exec (onSubmit sample_env) input_submit_page) = controls input_submit_page.
Proof.
  apply (missing_submit_button_throws sample_env input_submit_page); reflexivity.
Defined.

(** ** [lockForm], exactly *)

Lemma lockForm_exec p :
  exec lockForm p
  = mkPage (localStorage p) (storageTrace p) (map lock_control (controls p))
      "0.6" "none"
      (mkStatus (s_textContent (status p)) (s_className (status p)) "1" "bold")
      (audios p) (timers p) (requests p) (consoleErrors p) (scrolledTo p)
      (validityReports p) (submitListeners p) (randomCalls p).
Proof.
  pose proof (lockForm_controls p) as Hc.
  unfold lockForm in *.
  rewrite (exec_bind_normal _ _ p (matching_from sel_lockable 0 (controls p))) in * by done.
  change (exec (querySelectorAll sel_lockable) p) with p in *.
  pose proof (total_forEach (matching_from sel_lockable 0 (controls p))
                (update_control (set_disabled true))
                (update_control_total _)) as Ht.
  rewrite (exec_bind_normal _ _ p tt) in * by (by apply total_unit).
  set (q := exec (forEach (matching_from sel_lockable 0 (controls p))
                    (update_control (set_disabled true))) p) in *.
  rewrite (exec_bind_normal _ _ q tt) in * by done.
  assert (Hq : ∀ {B} (g : Page → B),
             (∀ cs p, g (with_controls cs p) = g p) → g q = g p).
  { intros B g Hg. apply (preserves_forEach g). intros i.
    by apply update_control_preserves. }
  change (controls q = map lock_control (controls p)) in Hc.
  unfold exec, modify, with_status, with_formStyle. cbn [snd].
  cbn [localStorage storageTrace controls formOpacity formPointerEvents status
       audios timers requests consoleErrors scrolledTo validityReports
       submitListeners randomCalls].
  rewrite Hc.
  rewrite (Hq _ localStorage), (Hq _ storageTrace), (Hq _ status), (Hq _ audios),
    (Hq _ timers), (Hq _ requests), (Hq _ consoleErrors), (Hq _ scrolledTo),
    (Hq _ validityReports), (Hq _ submitListeners), (Hq _ randomCalls) by done.
  reflexivity.
Qed.

Lemma lock_control_twice c : lock_control (lock_control c) = lock_control c.
Proof.
  unfold lock_control.
  destruct (lockable c) eqn:E; [|by rewrite E].
  change (lockable (set_disabled true c)) with (lockable c). by rewrite E.
Qed.

(** X3.  [lockForm] changes one thing in the form, the [disabled] flag of its
    [input], [button] and [textarea] controls: every control keeps its tag,
    name, value and checked state, a [select] is left exactly as it was
    (enabled if it was), and the message in the status element stays.
    Locking a locked form changes nothing. *)
Theorem lockForm_only_disables (p : Page) :
  eval lockForm p = Normal tt
  ∧ length (controls (exec lockForm p)) = length (controls p)
  ∧ (∀ i c, controls p !! i = Some c →
       ∃ c', controls (exec lockForm p) !! i = Some c'
         ∧ c_tag c' = c_tag c ∧ c_type c' = c_type c ∧ c_name c' = c_name c
         ∧ c_value c' = c_value c ∧ c_checked c' = c_checked c
         ∧ c_disabled c' = lockable c || c_disabled c
         ∧ (c_tag c = TSelect → c' = c))
  ∧ s_textContent (status (exec lockForm p)) = s_textContent (status p)
  ∧ localStorage (exec lockForm p) = localStorage p
  ∧ exec lockForm (exec lockForm p) = exec lockForm p.
Proof.
  split; [apply total_unit, lockForm_total|].
  rewrite !lockForm_exec.
  cbn [controls status s_textContent localStorage storageTrace formOpacity
       formPointerEvents audios timers requests consoleErrors scrolledTo
       validityReports submitListeners randomCalls s_className].
  split; [apply length_map|]. split.
  - intros i c Hi. exists (lock_control c).
    split; [by rewrite list_lookup_fmap, Hi|].
    unfold lock_control, lockable.
    destruct c as [t ty n v ch dv dc r d tx b]. cbn.
    destruct t; cbn; repeat split; try done.
  - split; [done|]. split; [done|].
    f_equal. rewrite map_map. apply map_ext. apply lock_control_twice.
Qed.

(** ** The identifier, when none is usable *)

(** X4.  An empty string stored under the key counts as no identifier
    ([!uuid]): like a missing one it is replaced by a freshly generated
    identifier, which is never empty and costs exactly 31 draws of
    [Math.random()], one per [x] or [y] of the template; the storage is
    read once and written once. *)
Theorem missing_or_empty_identifier_is_generated (env : Env) (p : Page) :
  localStorage p !! "music_survey_user_uuid" = None
  ∨ localStorage p !! "music_survey_user_uuid" = Some "" →
  ∃ u, eval (getOrCreateUUID env) p = Normal u
    ∧ u = uuid_of_draws env uuid_template (randomCalls p)
    ∧ u ≠ ""
    ∧ localStorage (exec (getOrCreateUUID env) p)
      = <["music_survey_user_uuid" := u]> (localStorage p)
    ∧ randomCalls (exec (getOrCreateUUID env) p) = (randomCalls p + 31)%nat
    ∧ storageTrace (exec (getOrCreateUUID env) p)
      = storageTrace p ++ [OpGetItem "music_survey_user_uuid";
                           OpSetItem "music_survey_user_uuid" u].
Proof.
  intros H. fold uuid_key in H |- *.
  assert (Hf : JsString.truthy (localStorage p !! uuid_key) = false)
    by (by destruct H as [-> | ->]).
  destruct (getOrCreateUUID_generated env p Hf) as (He & Hs & Ht).
  eexists. split; [exact He|]. split; [done|].
  split; [apply generated_uuid_nonempty|]. split; [exact Hs|]. split; [|exact Ht].
  unfold exec, getOrCreateUUID. rewrite run_bind. cbn [getItem].
  change (STORAGE_PREFIX ++ "user_uuid")%string with uuid_key. rewrite Hf.
  rewrite run_bind, replace_xy_run. cbv beta iota.
  rewrite run_bind. cbn [setItem]. rewrite run_ret. reflexivity.
Qed.

(** A browser whose identifier entry was emptied. *)
Definition emptied_page : Page :=
  with_storage {[ "music_survey_user_uuid" := "" ]} [] sample_page.

Lemma missing_or_empty_identifier_is_generated_witness :
  ∃ u, eval (getOrCreateUUID sample_env) emptied_page = Normal u
    ∧ u = uuid_of_draws sample_env uuid_template (randomCalls emptied_page)
    ∧ u ≠ ""
    ∧ localStorage (exec (getOrCreateUUID sample_env) emptied_page)
      = <["music_survey_user_uuid" := u]> (localStorage emptied_page)
    ∧ randomCalls (exec (getOrCreateUUID sample_env) emptied_page)
      = (randomCalls emptied_page + 31)%nat
    ∧ storageTrace (exec (getOrCreateUUID sample_env) emptied_page)
      = storageTrace emptied_page ++ [OpGetItem "music_survey_user_uuid";
                                      OpSetItem "music_survey_user_uuid" u].
Proof.
  apply (missing_or_empty_identifier_is_generated sample_env emptied_page).
  right. reflexivity.
Defined.

(** ** [checkIfSubmitted] without the flag *)

(** X5.  Unless the value stored under ["music_survey_completed"] is exactly
    ["true"] (the comparison is [===]), [checkIfSubmitted] only reads the
    storage: the controls, the style of the form and the status element are
    as they were. *)
Theorem checkIfSubmitted_needs_true (p : Page) :
  localStorage p !! "music_survey_completed" ≠ Some "true" →
  eval checkIfSubmitted p = Normal tt
  ∧ controls (exec checkIfSubmitted p) = controls p
  ∧ formPointerEvents (exec checkIfSubmitted p) = formPointerEvents p
  ∧ formOpacity (exec checkIfSubmitted p) = formOpacity p
  ∧ status (exec checkIfSubmitted p) = status p
  ∧ localStorage (exec checkIfSubmitted p) = localStorage p
  ∧ storageTrace (exec checkIfSubmitted p)
    = storageTrace p ++ [OpGetItem "music_survey_completed"].
Proof.
  intros H.
  assert (Hrun : checkIfSubmitted p
                 = (Normal tt, log_op (OpGetItem "music_survey_completed")
                                 (localStorage p) p)).
  { unfold checkIfSubmitted. rewrite run_bind. cbn [getItem].
    change (STORAGE_PREFIX ++ "completed")%string with "music_survey_completed".
    by rewrite bool_decide_eq_false_2. }
  unfold eval, exec. by rewrite Hrun.
Qed.

(** A browser in which the flag holds something else than ["true"]. *)
Definition shouting_page : Page :=
  with_storage {[ "music_survey_completed" := "TRUE" ]} [] sample_page.

Lemma checkIfSubmitted_needs_true_witness :
  eval checkIfSubmitted shouting_page = Normal tt
  ∧ controls (exec checkIfSubmitted shouting_page) = controls shouting_page
  ∧ formPointerEvents (exec checkIfSubmitted shouting_page)
    = formPointerEvents shouting_page
  ∧ formOpacity (exec checkIfSubmitted shouting_page) = formOpacity shouting_page
  ∧ status (exec checkIfSubmitted shouting_page) = status shouting_page
  ∧ localStorage (exec checkIfSubmitted shouting_page) = localStorage shouting_page
  ∧ storageTrace (exec checkIfSubmitted shouting_page)
    = storageTrace shouting_page ++ [OpGetItem "music_survey_completed"].
Proof.
  apply (checkIfSubmitted_needs_true shouting_page).
  vm_compute. discriminate.
Defined.

(** ** [clearSurveyStorage], again *)

(** X6.  [clearSurveyStorage] only ever removes: an entry present afterwards was
    present before with the same value.  A second run right after the first
    finds nothing to remove, and a storage without audio-progress keys is
    left as it is.  Nothing but the storage is touched. *)
Theorem clearSurveyStorage_idempotent (p : Page) :
  (∀ k v, localStorage (exec clearSurveyStorage p) !! k = Some v →
          localStorage p !! k = Some v)
  ∧ localStorage (exec clearSurveyStorage (exec clearSurveyStorage p))
    = localStorage (exec clearSurveyStorage p)
  ∧ ((∀ k, JsString.startsWith k "music_survey_audio_" = true →
           localStorage p !! k = None) →
     localStorage (exec clearSurveyStorage p) = localStorage p)
  ∧ controls (exec clearSurveyStorage p) = controls p
  ∧ audios (exec clearSurveyStorage p) = audios p
  ∧ requests (exec clearSurveyStorage p) = requests p
  ∧ timers (exec clearSurveyStorage p) = timers p.
Proof.
  split; [|split; [|split]].
  - intros k v. rewrite clearSurveyStorage_lookup.
    by destruct (JsString.startsWith k audio_prefix).
  - apply map_eq. intros k. rewrite !clearSurveyStorage_lookup.
    by destruct (JsString.startsWith k audio_prefix).
  - intros Hnone. apply map_eq. intros k. rewrite clearSurveyStorage_lookup.
    destruct (JsString.startsWith k audio_prefix) eqn:E; [|done].
    symmetry. by apply Hnone.
  - by rewrite !clearSurveyStorage_preserves.
Qed.

(** ** File names and storage keys of audio sources *)

(** X7.  The file name is what follows the last slash: whatever the directory
    part of a source, it is dropped, so that files of the same name in
    different directories share one storage key; a source without a slash
    is its own file name. *)
Theorem file_name_drops_directories (dir name : string) :
  JsString.lastIndexOf name "/" = -1 →
  fileName_of (dir +:+ ("/" +:+ name)) = name
  ∧ fileName_of name = name
  ∧ audio_key (dir +:+ ("/" +:+ name)) = "music_survey_audio_" +:+ name.
Proof.
  intros H%lastIndexOf_none.
  assert (H1 : fileName_of (dir +:+ ("/" +:+ name)) = name).
  { unfold fileName_of, JsString.lastIndexOf, JsString.substring_from.
    rewrite lastIndexOf_from_app.
    change ("/" +:+ name) with (String "/" name) at 1.
    cbn [JsString.lastIndexOf_from].
    rewrite Ascii.eqb_refl, (lastIndexOf_from_absent _ _ _ _ H).
    replace (Z.to_nat (0 + Z.of_nat (String.length dir) + 1))
      with (String.length (dir +:+ "/")).
    - replace (dir +:+ ("/" +:+ name)) with ((dir +:+ "/") +:+ name).
      + apply drop_length_app.
      + clear. induction dir as [|c d IH]; [done|].
        change (String c ((d +:+ "/") +:+ name) = String c (d +:+ ("/" +:+ name))).
        by rewrite IH.
    - clear. induction dir as [|c d IH]; [done|].
      change (String.length (String c d +:+ "/")) with (S (String.length (d +:+ "/"))).
      rewrite IH. cbn [String.length]. lia. }
  split; [exact H1|]. split.
  - unfold fileName_of, JsString.lastIndexOf.
    by rewrite (lastIndexOf_from_absent _ _ _ _ H).
  - unfold audio_key. by rewrite H1.
Qed.

Lemma file_name_drops_directories_witness :
  fileName_of ("https://example.org/audio" +:+ ("/" +:+ "track1.mp3")) = "track1.mp3"
  ∧ fileName_of "track1.mp3" = "track1.mp3"
  ∧ audio_key ("https://example.org/audio" +:+ ("/" +:+ "track1.mp3"))
    = "music_survey_audio_" +:+ "track1.mp3".
Proof.
  apply (file_name_drops_directories "https://example.org/audio" "track1.mp3").
  reflexivity.
Defined.

(** ** A saved position that does not read as a number *)

Lemma initAudio_fails env p pre a rest src v :
  audios p = pre ++ a :: rest →
  audio_src a = Some src → src ≠ "" →
  localStorage p !! audio_key src = Some v → v ≠ "" →
  is_finite (parseFloat env v) = false →
  initAudio env (length pre) p
  = (Throw (TypeError "The provided double value is non-finite"),
     log_op (OpGetItem (audio_key src)) (localStorage p) p).
Proof.
  intros Hp Hsrc Hne Hv Hv' Hnf.
  assert (Hi : audios p !! length pre = Some a).
  { rewrite Hp, lookup_app_r by lia. by rewrite Nat.sub_diag. }
  unfold initAudio. rewrite run_bind. cbn [gets]. rewrite Hi, Hsrc.
  cbn [JsString.truthy]. apply String.eqb_neq in Hne. rewrite Hne.
  cbn [negb default from_option id].
  rewrite run_bind. cbn [getItem]. rewrite Hv, (truthy_Some _ Hv').
  rewrite run_bind. unfold assign_currentTime. cbn [default from_option id].
  by rewrite Hnf.
Qed.

Lemma checkIfSubmitted_preserves {B} (g : Page -> B) :
  (∀ ls tr p, g (with_storage ls tr p) = g p) →
  (∀ cs p, g (with_controls cs p) = g p) →
  (∀ o e p, g (with_formStyle o e p) = g p) →
  (∀ s p, g (with_status s p) = g p) →
  preserves g checkIfSubmitted.
Proof.
  intros Hs Hc Hf Ht. unfold checkIfSubmitted.
  apply preserves_bind; [intros p; apply Hs|]. intros v.
  case_bool_decide; [|apply preserves_ret].
  apply preserves_bind; [by apply lockForm_preserves|]. intros _.
  by apply preserves_modify.
Qed.

Lemma checkIfSubmitted_storage p :
  localStorage (exec checkIfSubmitted p) = localStorage p.
Proof.
  unfold checkIfSubmitted.
  rewrite (exec_bind_normal _ _ p (localStorage p !! (STORAGE_PREFIX +:+ "completed")))
    by done.
  case_bool_decide; [|done].
  rewrite (exec_bind_normal _ _ _ tt) by apply total_unit, lockForm_total.
  change (localStorage (exec lockForm (exec (getItem (STORAGE_PREFIX +:+ "completed")) p))
          = localStorage p).
  by rewrite lockForm_preserves.
Qed.

Lemma checkIfSubmitted_total : total checkIfSubmitted.
Proof.
  unfold checkIfSubmitted. apply total_bind; [by eexists|]. intros v.
  case_bool_decide; [|apply total_ret].
  apply total_bind; [apply lockForm_total|]. intros _. apply showStatus_total.
Qed.

(** X8.  If the value saved for some audio element reads as a number that is
    not finite (as [parseFloat] of a word does), assigning it to
    [currentTime] throws: [initAudioPersistence] stops there with a
    [TypeError], the elements before it having been initialised, that
    element and all later ones getting no listener; since the exception
    leaves the [DOMContentLoaded] listener, the [submit] listener is never
    attached. *)
Theorem unreadable_position_aborts_load (env : Env) (p : Page)
    (pre : list Audio) (a : Audio) (rest : list Audio) (src v : string) :
  audios p = pre ++ a :: rest →
  (∀ b s w, b ∈ pre → audio_src b = Some s → s ≠ "" →
     localStorage p !! audio_key s = Some w → w ≠ "" →
     is_finite (parseFloat env w) = true) →
  audio_src a = Some src → src ≠ "" →
  localStorage p !! audio_key src = Some v → v ≠ "" →
  is_finite (parseFloat env v) = false →
  eval (onDOMContentLoaded env) p
  = Throw (TypeError "The provided double value is non-finite")
  ∧ submitListeners (exec (onDOMContentLoaded env) p) = submitListeners p
  ∧ audios (exec (onDOMContentLoaded env) p)
    = map (audio_initialised env (localStorage p)) pre ++ a :: rest.
Proof.
  intros Hp Hok Hsrc Hne Hv Hv' Hnf.
  set (p1 := exec checkIfSubmitted p).
  assert (Ha1 : audios p1 = audios p) by (by apply checkIfSubmitted_preserves).
  assert (Hl1 : localStorage p1 = localStorage p) by apply checkIfSubmitted_storage.
  assert (Hs1 : submitListeners p1 = submitListeners p)
    by (by apply checkIfSubmitted_preserves).
  assert (Hrun : onDOMContentLoaded env p
                 = (initAudioPersistence env;;
                    modify (fun p => with_submitListeners (S (submitListeners p)) p)) p1).
  { unfold onDOMContentLoaded. rewrite run_bind, (run_eq checkIfSubmitted p).
    by rewrite (total_unit _ _ checkIfSubmitted_total). }
  assert (Hinit : initAudioPersistence env p1
            = (Throw (TypeError "The provided double value is non-finite"),
               log_op (OpGetItem (audio_key src)) (localStorage p)
                 (exec (forEach (seq 0 (length pre)) (initAudio env)) p1))).
  { unfold initAudioPersistence. rewrite run_bind. cbn [gets].
    rewrite Ha1, Hp, length_app. cbn [length].
    rewrite seq_app. cbn [seq]. rewrite forEach_app_run.
    destruct (initAudio_loop_mid env pre [] (a :: rest) p1) as (He & Ha & Hl).
    { by rewrite Ha1, Hp. }
    { intros b s w Hb. rewrite Hl1. by apply Hok. }
    cbn [length app] in *.
    rewrite (run_eq (forEach (seq 0 (length pre)) (initAudio env)) p1), He.
    cbn [forEach]. rewrite run_bind.
    rewrite Nat.add_0_l.
    set (q := exec (forEach (seq 0 (length pre)) (initAudio env)) p1) in *.
    pose proof (initAudio_fails env q (map (audio_initialised env (localStorage p1)) pre)
                  a rest src v) as Hfail.
    rewrite length_map, Hl, Hl1 in Hfail. rewrite Hl1 in Ha.
    by rewrite (Hfail Ha Hsrc Hne Hv Hv' Hnf). }
  unfold eval, exec. rewrite Hrun, run_bind, Hinit. cbn [fst snd].
  split; [done|]. split.
  - change (submitListeners (exec (forEach (seq 0 (length pre)) (initAudio env)) p1)
            = submitListeners p).
    rewrite (preserves_forEach submitListeners); [exact Hs1|].
    intros i. by apply initAudio_preserves.
  - change (audios (exec (forEach (seq 0 (length pre)) (initAudio env)) p1)
            = map (audio_initialised env (localStorage p)) pre ++ a :: rest).
    destruct (initAudio_loop_mid env pre [] (a :: rest) p1) as (_ & Ha & _).
    { by rewrite Ha1, Hp. }
    { intros b s w Hb. rewrite Hl1. by apply Hok. }
    cbn [length app] in Ha. by rewrite Ha, Hl1.
Qed.

(** The sample page in a browser where the saved position was overwritten
    by a word. *)
Definition garbled_page : Page :=
  with_storage {[ "music_survey_audio_track1.mp3" := "abc" ]} [] sample_page.

Lemma unreadable_position_aborts_load_witness :
  eval (onDOMContentLoaded player_env) garbled_page
  = Throw (TypeError "The provided double value is non-finite")
  ∧ submitListeners (exec (onDOMContentLoaded player_env) garbled_page)
    = submitListeners garbled_page
  ∧ audios (exec (onDOMContentLoaded player_env) garbled_page)
    = map (audio_initialised player_env (localStorage garbled_page)) []
      ++ sample_audio :: [].
Proof.
  apply (unreadable_position_aborts_load player_env garbled_page [] sample_audio []
           "https://example.org/audio/track1.mp3" "abc").
  - reflexivity.
  - intros b s w Hb. by apply elem_of_nil in Hb.
  - reflexivity.
  - discriminate.
  - reflexivity.
  - discriminate.
  - reflexivity.
Defined.

(** ** Audio events that store nothing *)

(** X9.  While an element is paused, a [timeupdate] (as a seek fires one)
    leaves the storage alone: the position on record is the last one seen
    while playing. *)
Theorem paused_timeupdate_saves_nothing (env : Env) (q : Page) (i : nat)
    (b : Audio) (key : string) :
  audios q !! i = Some b →
  a_listeners b = [(EvTimeUpdate, SaveProgress key); (EvEnded, ClearProgress key)] →
  a_paused b = true →
  eval (dispatchAudioEvent env i EvTimeUpdate) q = Normal tt
  ∧ localStorage (exec (dispatchAudioEvent env i EvTimeUpdate) q) = localStorage q
  ∧ storageTrace (exec (dispatchAudioEvent env i EvTimeUpdate) q) = storageTrace q.
Proof.
  intros Hb Hl Hp.
  assert (Hls : listeners_for EvTimeUpdate b = [SaveProgress key]).
  { unfold listeners_for. rewrite Hl. reflexivity. }
  unfold eval, exec, dispatchAudioEvent.
  rewrite run_bind. cbn [gets]. rewrite Hb. cbn [from_option]. rewrite Hls.
  cbn [forEach]. rewrite run_bind. unfold run_listener. rewrite run_bind. cbn [gets].
  by rewrite Hb, Hp.
Qed.

Definition paused_page : Page :=
  exec (handle player_env PageLoaded)
    (with_audios [mkAudio "" (Some "https://example.org/audio/track1.mp3")
                    3.25%float true []] resumed_page).

Lemma paused_timeupdate_saves_nothing_witness :
  eval (dispatchAudioEvent player_env 0 EvTimeUpdate) paused_page = Normal tt
  ∧ localStorage (exec (dispatchAudioEvent player_env 0 EvTimeUpdate) paused_page)
    = localStorage paused_page
  ∧ storageTrace (exec (dispatchAudioEvent player_env 0 EvTimeUpdate) paused_page)
    = storageTrace paused_page.
Proof.
  apply (paused_timeupdate_saves_nothing player_env paused_page 0
           (mkAudio "" (Some "https://example.org/audio/track1.mp3") 12.5%float true
              [(EvTimeUpdate, SaveProgress "music_survey_audio_track1.mp3");
               (EvEnded, ClearProgress "music_survey_audio_track1.mp3")])
           "music_survey_audio_track1.mp3"); reflexivity.
Defined.





(** ** After a successful submission *)

Lemma page_sending_uuid env p i u :
  eval (getOrCreateUUID env) p = Normal u →
  localStorage (page_sending env p i) !! uuid_key = Some u.
Proof.
  intros Hu. rewrite (proj1 (page_sending_storage env p i)).
  destruct (JsString.truthy (localStorage p !! uuid_key)) eqn:Ht.
  - destruct (localStorage p !! uuid_key) as [u0|] eqn:Hu0; [|done].
    assert (Hne : u0 ≠ "") by (intros ->; discriminate Ht).
    unfold eval, exec in *. rewrite (getOrCreateUUID_stored env p u0 Hu0 Hne) in *.
    cbn in *. congruence.
  - destruct (getOrCreateUUID_generated env p Ht) as (He & Hs & _).
    rewrite Hs. rewrite He in Hu. injection Hu as <-. apply lookup_insert_eq.
Qed.

(** X11.  Once the response is opaque the fields are reset to their defaults
    ([form.reset()]) and a success message is shown, but the submit button
    is not touched again: it stays disabled and keeps the label
    ["處理中..."] it was given before the request.  The identifier that was
    sent is the one left in the storage. *)
Theorem success_resets_form (env : Env) (p : Page) (i : nat) :
  eval validateCheckboxGroups p = Normal true →
  eval checkValidity p = Normal true →
  eval (querySelector sel_submit) p = Normal (Some i) →
  fetch_outcome env (submit_request env p) = FetchResolved "opaque" →
  controls (exec (onSubmit env) p)
  = map reset_control
      (alter (set_textContent "處理中...") i (alter (set_disabled true) i (controls p)))
  ∧ (∃ c, controls (exec (onSubmit env) p) !! i = Some c
          ∧ c_disabled c = true ∧ c_textContent c = "處理中...")
  ∧ s_textContent (status (exec (onSubmit env) p)) = "提交成功！感謝您的參與"
  ∧ s_className (status (exec (onSubmit env) p)) = "success"
  ∧ (∃ u, eval (getOrCreateUUID env) p = Normal u
          ∧ localStorage (exec (onSubmit env) p) !! "music_survey_user_uuid" = Some u
          ∧ requests (exec (onSubmit env) p) = requests p ++ [submit_request env p]).
Proof.
  intros Hg Hv Hbtn%querySelector_found Hf.
  pose proof (onSubmit_opaque env p i (conj Hg Hv) Hbtn Hf) as Hrun.
  assert (Hexec : exec (onSubmit env) p = exec submit_success (page_sending env p i)).
  { unfold exec. by rewrite Hrun. }
  rewrite Hexec.
  destruct (submit_success_effects (page_sending env p i)) as (_ & Hc & Hr).
  rewrite Hc, Hr, page_sending_controls, page_sending_requests.
  split; [done|]. split.
  { assert (Hi : is_Some (controls p !! i)).
    { apply lookup_lt_is_Some.
      assert (Hgen : ∀ cs j k, head (matching_from sel_submit j cs) = Some k →
                (k < j + length cs)%nat).
      { clear. induction cs as [|c cs IH]; intros j k H; [done|].
        cbn [matching_from] in H. destruct (matches sel_submit c).
        - cbn in H. injection H as <-. cbn. lia.
        - apply IH in H. cbn. lia. }
      apply (Hgen (controls p) 0%nat i Hbtn). }
    destruct Hi as [c0 Hc0].
    exists (reset_control (set_textContent "處理中..." (set_disabled true c0))).
    split; [|done].
    by rewrite list_lookup_fmap, !list_lookup_alter_eq, Hc0. }
  split.
  { unfold submit_success.
    rewrite (exec_bind_normal _ _ _ tt) by done.
    rewrite (exec_bind_normal _ _ _ tt) by done.
    rewrite (exec_bind_normal _ _ _ tt) by apply total_unit, clearSurveyStorage_total.
    rewrite (exec_bind_normal _ _ _ tt) by done.
    change (s_textContent
              (status (exec clearSurveyStorage
                         (exec form_reset
                            (exec (showStatus "提交成功！感謝您的參與" "success")
                               (page_sending env p i)))))
            = "提交成功！感謝您的參與").
    by rewrite clearSurveyStorage_preserves. }
  split.
  { unfold submit_success.
    rewrite (exec_bind_normal _ _ _ tt) by done.
    rewrite (exec_bind_normal _ _ _ tt) by done.
    rewrite (exec_bind_normal _ _ _ tt) by apply total_unit, clearSurveyStorage_total.
    rewrite (exec_bind_normal _ _ _ tt) by done.
    change (s_className
              (status (exec clearSurveyStorage
                         (exec form_reset
                            (exec (showStatus "提交成功！感謝您的參與" "success")
                               (page_sending env p i)))))
            = "success").
    by rewrite clearSurveyStorage_preserves. }
  destruct (getOrCreateUUID_total env p) as [u Hu].
  exists u. split; [done|]. split; [|done].
  rewrite submit_success_storage.
  case_decide as E; [discriminate E|].
  change (JsString.startsWith "music_survey_user_uuid" audio_prefix) with false.
  by apply page_sending_uuid.
Qed.

Lemma success_resets_form_witness :
  controls (exec (onSubmit sample_env) sample_page)
  = map reset_control
      (alter (set_textContent "處理中...") 6%nat
         (alter (set_disabled true) 6%nat (controls sample_page)))
  ∧ (∃ c, controls (exec (onSubmit sample_env) sample_page) !! 6%nat = Some c
          ∧ c_disabled c = true ∧ c_textContent c = "處理中...")
  ∧ s_textContent (status (exec (onSubmit sample_env) sample_page))
    = "提交成功！感謝您的參與"
  ∧ s_className (status (exec (onSubmit sample_env) sample_page)) = "success"
  ∧ (∃ u, eval (getOrCreateUUID sample_env) sample_page = Normal u
          ∧ localStorage (exec (onSubmit sample_env) sample_page)
              !! "music_survey_user_uuid" = Some u
          ∧ requests (exec (onSubmit sample_env) sample_page)
            = requests sample_page ++ [submit_request sample_env sample_page]).
Proof.
  apply (success_resets_form sample_env sample_page 6); reflexivity.
Defined.

(** ** Coming back after a successful submission *)

Lemma checkIfSubmitted_flagged p :
  localStorage p !! "music_survey_completed" = Some "true" →
  controls (exec checkIfSubmitted p) = map lock_control (controls p)
  ∧ formPointerEvents (exec checkIfSubmitted p) = "none".
Proof.
  intros Hflag.
  set (p1 := exec (getItem (STORAGE_PREFIX +:+ "completed")) p).
  assert (Hrun : exec checkIfSubmitted p
                 = exec (showStatus "您已完成此問卷，請勿重複填寫。" "info")
                     (exec lockForm p1)).
  { unfold exec at 1, checkIfSubmitted. rewrite run_bind. cbn [getItem].
    change (STORAGE_PREFIX ++ "completed")%string with "music_survey_completed".
    rewrite Hflag, bool_decide_eq_true_2 by done.
    change (exec (lockForm;; showStatus "您已完成此問卷，請勿重複填寫。" "info") p1
            = exec (showStatus "您已完成此問卷，請勿重複填寫。" "info") (exec lockForm p1)).
    by rewrite (exec_bind_normal _ _ p1 tt) by apply total_unit, lockForm_total. }
  rewrite Hrun. split.
  - rewrite showStatus_controls. by rewrite lockForm_controls.
  - apply lockForm_style.
Qed.

Lemma returned_uuid_nonempty env p u :
  eval (getOrCreateUUID env) p = Normal u → u ≠ "".
Proof.
  intros Hu.
  destruct (JsString.truthy (localStorage p !! uuid_key)) eqn:Ht.
  - destruct (localStorage p !! uuid_key) as [u0|] eqn:Hu0; [|done].
    assert (Hne : u0 ≠ "") by (intros ->; discriminate Ht).
    unfold eval in Hu. rewrite (getOrCreateUUID_stored env p u0 Hu0 Hne) in Hu.
    cbn in Hu. congruence.
  - destruct (getOrCreateUUID_generated env p Ht) as (He & _).
    rewrite He in Hu. injection Hu as <-. apply generated_uuid_nonempty.
Qed.

(** X12.  The duplicate-prevention cycle.  After a submission answered with an
    opaque response, any page opened on the storage the listener left (the
    same page reloaded, or the survey opened again in that browser) is
    locked by [checkIfSubmitted] as soon as it loads, and
    [getOrCreateUUID] there returns the identifier that was sent. *)
Theorem reload_after_success_is_locked (env env' : Env) (p q : Page) (i : nat) :
  eval validateCheckboxGroups p = Normal true →
  eval checkValidity p = Normal true →
  eval (querySelector sel_submit) p = Normal (Some i) →
  fetch_outcome env (submit_request env p) = FetchResolved "opaque" →
  localStorage q = localStorage (exec (onSubmit env) p) →
  controls (exec checkIfSubmitted q) = map lock_control (controls q)
  ∧ (∀ c, c ∈ controls (exec checkIfSubmitted q) → lockable c = true →
          c_disabled c = true)
  ∧ formPointerEvents (exec checkIfSubmitted q) = "none"
  ∧ ∃ u, eval (getOrCreateUUID env) p = Normal u
         ∧ eval (getOrCreateUUID env') q = Normal u
         ∧ localStorage (exec (getOrCreateUUID env') q) = localStorage q.
Proof.
  intros Hg Hv Hbtn%querySelector_found Hf Hq.
  pose proof (onSubmit_opaque env p i (conj Hg Hv) Hbtn Hf) as Hrun.
  assert (Hexec : exec (onSubmit env) p = exec submit_success (page_sending env p i)).
  { unfold exec. by rewrite Hrun. }
  rewrite Hexec in Hq.
  assert (Hflag : localStorage q !! "music_survey_completed" = Some "true").
  { by rewrite Hq, submit_success_storage. }
  destruct (checkIfSubmitted_flagged q Hflag) as [Hc Hs].
  split; [exact Hc|]. split.
  { intros c Hin Hl. rewrite Hc in Hin.
    apply list_elem_of_fmap in Hin as (c0 & -> & _).
    unfold lock_control in *. destruct (lockable c0) eqn:E; [done|congruence]. }
  split; [exact Hs|].
  destruct (getOrCreateUUID_total env p) as [u Hu].
  exists u. split; [exact Hu|].
  assert (Hstored : localStorage q !! uuid_key = Some u).
  { rewrite Hq, submit_success_storage.
    case_decide as E; [discriminate E|].
    change (JsString.startsWith uuid_key audio_prefix) with false.
    by apply page_sending_uuid. }
  unfold eval, exec.
  by rewrite (getOrCreateUUID_stored env' q u Hstored (returned_uuid_nonempty env p u Hu)).
Qed.

(** The sample page reloaded after its successful submission. *)
Definition reloaded_page : Page :=
  with_storage (localStorage (exec (onSubmit sample_env) sample_page)) [] sample_page.

Lemma reload_after_success_is_locked_witness :
  controls (exec checkIfSubmitted reloaded_page) = map lock_control (controls reloaded_page)
  ∧ (∀ c, c ∈ controls (exec checkIfSubmitted reloaded_page) → lockable c = true →
          c_disabled c = true)
  ∧ formPointerEvents (exec checkIfSubmitted reloaded_page) = "none"
  ∧ ∃ u, eval (getOrCreateUUID sample_env) sample_page = Normal u
         ∧ eval (getOrCreateUUID offline_env) reloaded_page = Normal u
         ∧ localStorage (exec (getOrCreateUUID offline_env) reloaded_page)
           = localStorage reloaded_page.
Proof.
  apply (reload_after_success_is_locked sample_env offline_env sample_page
           reloaded_page 6); [reflexivity..|].
  vm_compute. reflexivity.
Defined.

(** ** What the script never forgets *)

(** The keys held by the listeners of an audio element are audio-progress
    keys. *)
Definition audio_strict (a : Audio) : Prop :=
  Forall (fun el => JsString.startsWith (listener_key el.2) "music_survey_audio_" = true)
    (a_listeners a).

Section Permanence.

(** A property [Q] of the storage that survives what the script does to
    audio-progress entries, the setting of the completed flag, and
    [getOrCreateUUID]. *)
Variable Q : gmap string string → Prop.
Hypothesis Q_audio_set : ∀ m k v,
  JsString.startsWith k "music_survey_audio_" = true → Q m → Q (<[k := v]> m).
Hypothesis Q_audio_delete : ∀ m k,
  JsString.startsWith k "music_survey_audio_" = true → Q m → Q (delete k m).
Hypothesis Q_completed : ∀ m, Q m → Q (<["music_survey_completed" := "true"]> m).
Hypothesis Q_uuid : ∀ env p,
  Q (localStorage p) → Q (localStorage (exec (getOrCreateUUID env) p)).

Definition steady (p : Page) : Prop :=
  Forall audio_strict (audios p) ∧ Q (localStorage p).

Definition keeps_steady {A} (m : M A) : Prop :=
  ∀ p, steady p → steady (exec m p).

Lemma steady_ret {A} (a : A) : keeps_steady (mret a : M A).
Proof. by intros p Hp. Qed.

Lemma steady_throw {A} e : keeps_steady (throw e : M A).
Proof. by intros p Hp. Qed.

Lemma steady_gets {A} (g : Page -> A) : keeps_steady (gets g).
Proof. by intros p Hp. Qed.

Lemma steady_bind {A B} (m : M A) (k : A -> M B) :
  keeps_steady m → (∀ a, keeps_steady (k a)) → keeps_steady (m ≫= k).
Proof.
  intros Hm Hk p Hp. specialize (Hm p Hp). unfold exec in *. rewrite run_bind.
  destruct (m p) as [[a|e] p']; [by apply Hk|done].
Qed.

Lemma steady_try_catch {A} (m : M A) (h : Exn -> M A) :
  keeps_steady m → (∀ e, keeps_steady (h e)) → keeps_steady (try_catch m h).
Proof.
  intros Hm Hh p Hp. specialize (Hm p Hp). unfold exec, try_catch in *.
  destruct (m p) as [[a|e] p']; [done|by apply Hh].
Qed.

Lemma steady_forEach {A} (l : list A) (f : A -> M unit) :
  (∀ x, x ∈ l → keeps_steady (f x)) → keeps_steady (forEach l f).
Proof.
  induction l as [|x l IH]; intros Hf; [apply steady_ret|].
  cbn [forEach]. apply steady_bind; [apply Hf; by left|].
  intros _. apply IH. intros y Hy. apply Hf. by right.
Qed.

Lemma steady_frame {A} (m : M A) :
  preserves localStorage m → preserves audios m → keeps_steady m.
Proof. intros Hl Ha p [H1 H2]. split; [by rewrite Ha|by rewrite Hl]. Qed.

Lemma steady_modify g :
  (∀ p, localStorage (g p) = localStorage p) → (∀ p, audios (g p) = audios p) →
  keeps_steady (modify g).
Proof. intros Hl Ha. apply steady_frame; by apply preserves_modify. Qed.

Lemma steady_getItem k : keeps_steady (getItem k).
Proof. by intros p Hp. Qed.

Lemma steady_lockForm : keeps_steady lockForm.
Proof. apply steady_frame; by apply lockForm_preserves. Qed.

Lemma steady_clearSurveyStorage : keeps_steady clearSurveyStorage.
Proof.
  unfold clearSurveyStorage. apply steady_bind; [by intros p Hp|].
  intros keys. apply steady_forEach. intros k _.
  destruct (JsString.startsWith k _) eqn:E; [|apply steady_ret].
  intros p [H1 H2]. split; [done|]. by apply Q_audio_delete.
Qed.

Lemma steady_getOrCreateUUID env : keeps_steady (getOrCreateUUID env).
Proof.
  intros p [H1 H2]. split; [|by apply Q_uuid].
  by rewrite (getOrCreateUUID_preserves env audios).
Qed.

Lemma steady_update_control_opt f el : keeps_steady (update_control_opt f el).
Proof. destruct el; [by apply steady_modify|apply steady_throw]. Qed.

Lemma steady_onSubmit env : keeps_steady (onSubmit env).
Proof.
  unfold onSubmit. apply steady_bind.
  { apply steady_frame; by apply validateGroups_preserves. }
  intros ok. destruct (negb ok); [apply steady_ret|].
  apply steady_bind; [apply steady_gets|]. intros valid. destruct (negb valid).
  { apply steady_bind; [by apply steady_modify|]. intros _. by apply steady_modify. }
  apply steady_try_catch.
  - unfold submit_try. apply steady_bind; [apply steady_gets|]. intros formData.
    apply steady_bind; [apply steady_getOrCreateUUID|]. intros u.
    apply steady_bind; [by apply steady_modify|]. intros _.
    apply steady_bind; [apply steady_gets|]. intros btn.
    apply steady_bind; [apply steady_update_control_opt|]. intros _.
    apply steady_bind; [apply steady_update_control_opt|]. intros _.
    apply steady_bind.
    { apply steady_frame; intros p; unfold exec, await_fetch;
        by destruct (fetch_outcome env _). }
    intros ty. destruct (String.eqb ty "opaque"); [|apply steady_throw].
    apply steady_bind; [by apply steady_modify|]. intros _.
    apply steady_bind; [by apply steady_modify|]. intros _.
    apply steady_bind; [apply steady_clearSurveyStorage|]. intros _.
    apply steady_bind; [|intros _; by apply steady_modify].
    intros p [H1 H2]. split; [done|]. by apply Q_completed.
  - intros e. unfold submit_catch.
    apply steady_bind; [by apply steady_modify|]. intros _.
    apply steady_bind; [apply steady_gets|]. intros btn.
    apply steady_bind; [apply steady_update_control_opt|]. intros _.
    apply steady_bind; [apply steady_update_control_opt|]. intros _.
    by apply steady_modify.
Qed.

Lemma steady_alter_audio (f : Audio -> Audio) i :
  (∀ a, audio_strict a → audio_strict (f a)) →
  keeps_steady (modify (fun p => with_audios (alter f i (audios p)) p)).
Proof.
  intros Hf p [H1 H2]. split; [|done].
  change (Forall audio_strict (alter f i (audios p))).
  apply Forall_alter; [done|]. intros a _. apply Hf.
Qed.

Lemma audio_key_strict src :
  JsString.startsWith (audio_key src) "music_survey_audio_" = true.
Proof.
  unfold audio_key, JsString.startsWith.
  change (STORAGE_PREFIX ++ "audio_" ++ fileName_of src)%string
    with ("music_survey_audio_" +:+ fileName_of src).
  apply prefix_app.
Qed.

Lemma add_listener_strict ev l a :
  JsString.startsWith (listener_key l) "music_survey_audio_" = true →
  audio_strict a → audio_strict (add_listener ev l a).
Proof.
  intros Hl Ha. unfold audio_strict. cbn. apply Forall_app. split; [done|].
  by apply Forall_singleton.
Qed.

Lemma steady_initAudio env i : keeps_steady (initAudio env i).
Proof.
  unfold initAudio. apply steady_bind; [apply steady_gets|].
  intros [a|]; [|apply steady_ret].
  destruct (negb _); [apply steady_ret|].
  apply steady_bind; [apply steady_getItem|]. intros saved.
  apply steady_bind.
  { destruct (JsString.truthy saved); [|apply steady_ret].
    unfold assign_currentTime. destruct (is_finite _); [|apply steady_throw].
    by apply steady_alter_audio. }
  intros _. apply steady_bind.
  { apply steady_alter_audio. intros b. apply add_listener_strict, audio_key_strict. }
  intros _. apply steady_alter_audio. intros b.
  apply add_listener_strict, audio_key_strict.
Qed.

Lemma steady_run_listener env i l :
  JsString.startsWith (listener_key l) "music_survey_audio_" = true →
  keeps_steady (run_listener env i l).
Proof.
  intros Hl. destruct l as [k|k].
  - unfold run_listener. apply steady_bind; [apply steady_gets|].
    intros [a|]; [|apply steady_ret].
    destruct (negb _); [|apply steady_ret].
    intros p [H1 H2]. split; [done|]. by apply Q_audio_set.
  - intros p [H1 H2]. split; [done|]. by apply Q_audio_delete.
Qed.

Lemma steady_dispatchAudioEvent env i ev : keeps_steady (dispatchAudioEvent env i ev).
Proof.
  intros p Hp. unfold exec, dispatchAudioEvent. rewrite run_bind. cbn [gets].
  apply (steady_forEach _ (run_listener env i)); [|done].
  intros l Hl. apply steady_run_listener.
  destruct (audios p !! i) as [a|] eqn:Ha; [|by apply elem_of_nil in Hl].
  cbn in Hl. unfold listeners_for in Hl.
  apply list_elem_of_fmap in Hl as ([ev' l'] & -> & Hin).
  apply list_elem_of_filter in Hin as [_ Hin].
  destruct Hp as [Hp _]. rewrite Forall_forall in Hp.
  assert (Hok : audio_strict a) by (apply Hp; by eapply list_elem_of_lookup_2).
  unfold audio_strict in Hok. rewrite Forall_forall in Hok. by apply (Hok (ev', l')).
Qed.

Lemma steady_handle env e : keeps_steady (handle env e).
Proof.
  destruct e as [| |i ev|]; cbn [handle].
  - unfold onDOMContentLoaded. apply steady_bind.
    { unfold checkIfSubmitted. apply steady_bind; [apply steady_getItem|].
      intros v. case_bool_decide; [|apply steady_ret].
      apply steady_bind; [apply steady_lockForm|]. intros _. by apply steady_modify. }
    intros _. apply steady_bind; [|intros _; by apply steady_modify].
    unfold initAudioPersistence. apply steady_bind; [apply steady_gets|].
    intros l. apply steady_forEach. intros j _. apply steady_initAudio.
  - unfold dispatchSubmit. apply steady_bind; [apply steady_gets|]. intros n.
    induction n as [|n IH]; [apply steady_ret|].
    cbn [repeatM]. apply steady_bind; [|by intros _].
    apply steady_try_catch; [apply steady_onSubmit|]. intros _. apply steady_ret.
  - apply steady_dispatchAudioEvent.
  - unfold fireTimer. apply steady_bind; [apply steady_gets|]. intros [|t rest].
    + apply steady_ret.
    + apply steady_bind; [by apply steady_modify|]. intros _.
      destruct t as [d []]. apply steady_lockForm.
Qed.

End Permanence.

(** On a page the script can reach, every listener holds an
    audio-progress key. *)
Lemma reachable_strict p : reachable p → Forall audio_strict (audios p).
Proof.
  induction 1 as [p (_ & Hl & _)|env e p _ IH|p p' _ IH (_ & Hl & _)].
  - eapply Forall_impl; [exact Hl|]. intros a Ha. unfold audio_strict. by rewrite Ha.
  - by apply (steady_handle (fun _ => True)).
  - assert (Hmap : ∀ l, Forall audio_strict l
              ↔ Forall (Forall (fun el : AudioEvent * AudioListener =>
                          JsString.startsWith (listener_key el.2) "music_survey_audio_"
                          = true)) (map a_listeners l)).
    { intros l. symmetry. apply (Forall_fmap a_listeners). }
    apply Hmap. rewrite Hl. by apply Hmap.
Qed.

Lemma audio_key_other k k' :
  JsString.startsWith k "music_survey_audio_" = true →
  JsString.startsWith k' "music_survey_audio_" = false → k ≠ k'.
Proof. intros H1 H2 ->. congruence. Qed.

(** X13.  Once ["true"] is stored under ["music_survey_completed"], nothing the
    script does takes it back: on every page the script can reach, after
    any page load, submission, audio event or timer the flag is still
    ["true"].  Only clearing the browser's storage from outside resets it. *)
Theorem completed_flag_is_permanent (env : Env) (e : Event) (p : Page) :
  reachable p →
  localStorage p !! "music_survey_completed" = Some "true" →
  localStorage (exec (handle env e) p) !! "music_survey_completed" = Some "true".
Proof.
  intros Hr Hflag.
  apply (steady_handle (fun m => m !! "music_survey_completed" = Some "true")).
  - intros m k v Hk Hm. rewrite lookup_insert_ne; [done|].
    by apply (audio_key_other k "music_survey_completed").
  - intros m k Hk Hm. rewrite lookup_delete_ne; [done|].
    by apply (audio_key_other k "music_survey_completed").
  - intros m _. apply lookup_insert_eq.
  - intros env0 p0 H0. rewrite getOrCreateUUID_storage.
    destruct (JsString.truthy _); [done|]. by rewrite lookup_insert_ne.
  - split; [by apply reachable_strict|done].
Qed.

Lemma completed_flag_is_permanent_witness :
  localStorage (exec (handle sample_env (AudioFired 0 EvEnded)) visited_page)
    !! "music_survey_completed" = Some "true".
Proof.
  apply (completed_flag_is_permanent sample_env (AudioFired 0 EvEnded) visited_page).
  - do 4 apply reach_event. apply reach_fresh. exact sample_page_fresh.
  - reflexivity.
Defined.

(** X14.  A non-empty identifier, once stored, is never replaced or removed by
    the script: on every page the script can reach, every event leaves it
    where it is. *)
Theorem identifier_is_permanent (env : Env) (e : Event) (p : Page) (u : string) :
  reachable p →
  localStorage p !! "music_survey_user_uuid" = Some u → u ≠ "" →
  localStorage (exec (handle env e) p) !! "music_survey_user_uuid" = Some u.
Proof.
  intros Hr Hu Hne.
  apply (steady_handle (fun m => m !! "music_survey_user_uuid" = Some u)).
  - intros m k v Hk Hm. rewrite lookup_insert_ne; [done|].
    by apply (audio_key_other k "music_survey_user_uuid").
  - intros m k Hk Hm. rewrite lookup_delete_ne; [done|].
    by apply (audio_key_other k "music_survey_user_uuid").
  - intros m Hm. by rewrite lookup_insert_ne.
  - intros env0 p0 H0. rewrite getOrCreateUUID_storage. fold uuid_key in H0.
    by rewrite H0, (truthy_Some _ Hne).
  - split; [by apply reachable_strict|done].
Qed.

Lemma identifier_is_permanent_witness :
  localStorage (exec (handle offline_env FormSubmitted) visited_page)
    !! "music_survey_user_uuid" = Some "07e5c3a1-8f6d-44b2-907e-5c3a18f6d4b2".
Proof.
  apply (identifier_is_permanent offline_env FormSubmitted visited_page
           "07e5c3a1-8f6d-44b2-907e-5c3a18f6d4b2").
  - do 4 apply reach_event. apply reach_fresh. exact sample_page_fresh.
  - reflexivity.
  - discriminate.
Defined.

(** ** Saving a position and finding it again *)






(** ** Trying again after a failure *)

(** X16.  After a failed request the form is ready for another attempt: the
    submit button is found again, enabled, and the identifier that
    [getOrCreateUUID] gives on the page the listener left is the one the
    failed request carried, so the backend sees one identifier for all the
    attempts of a browser. *)
Theorem retry_keeps_identifier (env env' : Env) (p : Page) (i : nat) :
  eval validateCheckboxGroups p = Normal true →
  eval checkValidity p = Normal true →
  eval (querySelector sel_submit) p = Normal (Some i) →
  fetch_failed (fetch_outcome env (submit_request env p)) →
  eval (querySelector sel_submit) (exec (onSubmit env) p) = Normal (Some i)
  ∧ ∃ u, eval (getOrCreateUUID env) p = Normal u
         ∧ eval (getOrCreateUUID env') (exec (onSubmit env) p) = Normal u
         ∧ localStorage (exec (getOrCreateUUID env') (exec (onSubmit env) p))
           = localStorage (exec (onSubmit env) p).
Proof.
  intros Hg Hv Hbtn%querySelector_found Hf.
  pose proof (onSubmit_failed env p i (conj Hg Hv) Hbtn Hf) as Hrun.
  assert (Hexec : exec (onSubmit env) p = page_failed (page_sending env p i) i).
  { unfold exec. by rewrite Hrun. }
  rewrite Hexec.
  destruct (page_failed_effects (page_sending env p i) i) as (_ & Hls & _ & _ & Hc & _).
  split.
  { unfold eval. cbn [querySelector gets fst]. f_equal. rewrite Hc.
    rewrite (matching_alter sel_submit _ (matches_set_textContent _ _)).
    rewrite (matching_alter sel_submit _ (matches_set_disabled _ _)).
    by apply page_sending_button. }
  destruct (getOrCreateUUID_total env p) as [u Hu].
  exists u. split; [exact Hu|].
  assert (Hstored : localStorage (page_failed (page_sending env p i) i) !! uuid_key = Some u).
  { rewrite Hls. by apply page_sending_uuid. }
  unfold eval, exec.
  by rewrite (getOrCreateUUID_stored env' _ u Hstored (returned_uuid_nonempty env p u Hu)).
Qed.

Lemma retry_keeps_identifier_witness :
  eval (querySelector sel_submit) (exec (onSubmit offline_env) sample_page)
  = Normal (Some 6%nat)
  ∧ ∃ u, eval (getOrCreateUUID offline_env) sample_page = Normal u
         ∧ eval (getOrCreateUUID sample_env) (exec (onSubmit offline_env) sample_page)
           = Normal u
         ∧ localStorage (exec (getOrCreateUUID sample_env)
                           (exec (onSubmit offline_env) sample_page))
           = localStorage (exec (onSubmit offline_env) sample_page).
Proof.
  apply (retry_keeps_identifier offline_env sample_env sample_page 6);
    [reflexivity|reflexivity|reflexivity|exact I].
Defined.
